(** * The upcoming-launch reconciliation job (src/jobs/upcoming.js)

    A shallow embedding of the job that reads the launch manifest of the
    subreddit wiki, matches its rows against the upcoming launches of the
    registry, and patches date, precision, launchpad and flight number.

    Text is modelled as [string]: a sequence of 8-bit code units, that is the
    Latin-1 range of JavaScript's UTF-16 strings.  Numbers are binary64
    floats: those that hold whole values are kept as [Z] (flight numbers,
    scores) or [nat] (array indices), with the rounding of each operation
    written out.  The third-party libraries the
    job calls are modelled as follows: the regular expressions and string
    methods of the language by the definitions of [Js]; the two fuzzball
    scorers by the interface [Fuzz] with the instance [Fuzzball.fuzzball];
    moment by the symbolic terms of [MomentExpr] (no date arithmetic is
    interpreted); got, cheerio and the logger by the requests and events of
    the driver's monad. *)

From Stdlib Require Import List String Ascii ZArith Lia Bool Arith Sorted.
Import ListNotations.

Local Open Scope list_scope.
Local Open Scope string_scope.

(* ================================================================== *)
(** * Characters, strings and regular expressions of the language *)
(* ================================================================== *)

Module Js.

(** ** Code units *)

Definition code (c : ascii) : nat := nat_of_ascii c.

Definition between (lo hi : nat) (c : ascii) : bool :=
  (lo <=? code c)%nat && (code c <=? hi)%nat.

(** [0-9] *)
Definition is_digit : ascii -> bool := between 48 57.
Definition is_upper : ascii -> bool := between 65 90.
Definition is_lower : ascii -> bool := between 97 122.
(** [a-z] under the i flag: the ASCII letters of either case. *)
Definition is_alpha (c : ascii) : bool := is_upper c || is_lower c.

Definition LF : ascii := "010"%char.
Definition CR : ascii := "013"%char.

(** LineTerminator (LF, CR); U+2028 and U+2029 lie outside the code units
    modelled. *)
Definition is_line_terminator (c : ascii) : bool :=
  (code c =? 10)%nat || (code c =? 13)%nat.

(** WhiteSpace and LineTerminator, the set of [\s] and of [trim]:
    TAB, LF, VT, FF, CR, SP and NBSP. *)
Definition is_space (c : ascii) : bool :=
  between 9 13 c || (code c =? 32)%nat || (code c =? 160)%nat.

(** [.] without the s flag. *)
Definition is_dot (c : ascii) : bool := negb (is_line_terminator c).

Definition any_char (_ : ascii) : bool := true.

(** Canonicalize of the i flag, as far as the patterns of the job need it
    (their characters are all ASCII): an ASCII letter goes to its upper case;
    a code unit of 128 or more never folds onto an ASCII one, so it is left
    alone. *)
Definition canonicalize (c : ascii) : ascii :=
  if is_lower c then ascii_of_nat (code c - 32) else c.

(** A pattern character [p] against an input character [c], i flag set. *)
Definition ci_eq (p c : ascii) : bool :=
  Ascii.eqb (canonicalize p) (canonicalize c).

Definition is_char (p c : ascii) : bool := Ascii.eqb p c.

(** ** Strings *)

Fixpoint all (p : ascii -> bool) (s : string) : bool :=
  match s with
  | "" => true
  | String c s' => p c && all p s'
  end.

Fixpoint has (p : ascii -> bool) (s : string) : bool :=
  match s with
  | "" => false
  | String c s' => p c || has p s'
  end.

(** [s.startsWith(w)] *)
Fixpoint starts_with (w s : string) : bool :=
  match w, s with
  | "", _ => true
  | String a w', String c s' => Ascii.eqb a c && starts_with w' s'
  | String _ _, "" => false
  end.

(** [s.includes(w)] *)
Fixpoint includes (w s : string) : bool :=
  starts_with w s ||
  match s with
  | "" => false
  | String _ s' => includes w s'
  end.

Fixpoint drop (n : nat) (s : string) : string :=
  match n, s with
  | 0, _ => s
  | S n', String _ s' => drop n' s'
  | S _, "" => ""
  end.

(** [s.replace(w, by)] with a string pattern: the first occurrence only. *)
Fixpoint replace_first (w by_ s : string) : string :=
  if starts_with w s then by_ ++ drop (String.length w) s
  else match s with
       | "" => ""
       | String c s' => String c (replace_first w by_ s')
       end.

(** [s.split('/')[0]] *)
Fixpoint before (sep : ascii) (s : string) : string :=
  match s with
  | "" => ""
  | String c s' => if Ascii.eqb c sep then "" else String c (before sep s')
  end.

Fixpoint trim_start (s : string) : string :=
  match s with
  | "" => ""
  | String c s' => if is_space c then trim_start s' else s
  end.

Fixpoint trim_end (s : string) : string :=
  match s with
  | "" => ""
  | String c s' =>
      match trim_end s' with
      | "" => if is_space c then "" else String c ""
      | t => String c t
      end
  end.

(** [s.trim()] *)
Definition trim (s : string) : string := trim_end (trim_start s).

(** [s.split(sep)] for a one-character separator: never empty. *)
Fixpoint split (sep : ascii) (s : string) : list string :=
  match s with
  | "" => [""]
  | String c s' =>
      if Ascii.eqb c sep then "" :: split sep s'
      else match split sep s' with
           | [] => [String c ""]
           | x :: xs => String c x :: xs
           end
  end.

(** The word [w], i flag set, at the start of [s]. *)
Fixpoint starts_with_ci (w s : string) : bool :=
  match w, s with
  | "", _ => true
  | String a w', String c s' => ci_eq a c && starts_with_ci w' s'
  | String _ _, "" => false
  end.

(** Which alternative of [/(w1|w2|...)/i] matches at the start of [s]: the
    first one in the order written; its length is returned. *)
Fixpoint first_alt (alts : list string) (s : string) : option nat :=
  match alts with
  | [] => None
  | w :: alts' =>
      if starts_with_ci w s then Some (String.length w) else first_alt alts' s
  end.

(** [s.replace(/(w1|w2|...)/gi, by)]: the scan goes left to right, replaces a
    match by [by_] and resumes after it.  [skip] counts the characters of the
    current match still to be passed over. *)
Fixpoint replace_alts (alts : list string) (by_ : string) (skip : nat)
    (s : string) : string :=
  match s with
  | "" => ""
  | String c s' =>
      match skip with
      | S k => replace_alts alts by_ k s'
      | 0 =>
          match first_alt alts s with
          | Some (S k) => by_ ++ replace_alts alts by_ k s'
          | _ => String c (replace_alts alts by_ 0 s')
          end
      end
  end.

Definition replace_all (alts : list string) (by_ : string) (s : string) : string :=
  replace_alts alts by_ 0 s.

(** [arr.filter((_, index) => p(index))] *)
Fixpoint filter_index {A : Type} (p : nat -> bool) (i : nat) (l : list A) : list A :=
  match l with
  | [] => []
  | x :: l' => if p i then x :: filter_index p (S i) l' else filter_index p (S i) l'
  end.

(** [arr.entries()] *)
Fixpoint entries_from {A : Type} (i : nat) (l : list A) : list (nat * A) :=
  match l with
  | [] => []
  | x :: l' => (i, x) :: entries_from (S i) l'
  end.

Definition entries {A : Type} (l : list A) : list (nat * A) := entries_from 0 l.

(** ** Regular expressions

    The patterns of the job are anchored at both ends and only tested, so a
    pattern matches exactly when the whole input is in its language; the
    matcher below decides that by derivatives. *)

Inductive regex : Type :=
| Void : regex
| Eps : regex
| Cls (p : ascii -> bool) : regex
| Cat (r1 r2 : regex) : regex
| Alt (r1 r2 : regex) : regex
| Star (r : regex) : regex.

Fixpoint nullable (r : regex) : bool :=
  match r with
  | Void => false
  | Eps => true
  | Cls _ => false
  | Cat r1 r2 => nullable r1 && nullable r2
  | Alt r1 r2 => nullable r1 || nullable r2
  | Star _ => true
  end.

Fixpoint deriv (c : ascii) (r : regex) : regex :=
  match r with
  | Void => Void
  | Eps => Void
  | Cls p => if p c then Eps else Void
  | Cat r1 r2 =>
      if nullable r1 then Alt (Cat (deriv c r1) r2) (deriv c r2)
      else Cat (deriv c r1) r2
  | Alt r1 r2 => Alt (deriv c r1) (deriv c r2)
  | Star r1 => Cat (deriv c r1) (Star r1)
  end.

(** [/^r$/.test(s)] *)
Fixpoint test (r : regex) (s : string) : bool :=
  match s with
  | "" => nullable r
  | String c s' => test (deriv c r) s'
  end.

(** [/r/.test(s)], no anchor: a match may start and end anywhere. *)
Definition search (r : regex) (s : string) : bool :=
  test (Cat (Star (Cls any_char)) (Cat r (Star (Cls any_char)))) s.

(** [r{n}] *)
Fixpoint rep (n : nat) (r : regex) : regex :=
  match n with
  | 0 => Eps
  | S n' => Cat r (rep n' r)
  end.

(** [r{0,n}] *)
Fixpoint upto (n : nat) (r : regex) : regex :=
  match n with
  | 0 => Eps
  | S n' => Alt Eps (Cat r (upto n' r))
  end.

(** [r{lo,hi}] *)
Definition range (lo hi : nat) (r : regex) : regex :=
  Cat (rep lo r) (upto (hi - lo) r).

(** [r?] *)
Definition opt (r : regex) : regex := Alt Eps r.

(** A literal word, i flag set. *)
Fixpoint word_ci (w : string) : regex :=
  match w with
  | "" => Eps
  | String a w' => Cat (Cls (ci_eq a)) (word_ci w')
  end.

(** The language of a pattern. *)
Inductive lang : regex -> string -> Prop :=
| lang_eps : lang Eps ""
| lang_cls p c : p c = true -> lang (Cls p) (String c "")
| lang_cat r1 r2 s1 s2 : lang r1 s1 -> lang r2 s2 -> lang (Cat r1 r2) (s1 ++ s2)
| lang_alt_l r1 r2 s : lang r1 s -> lang (Alt r1 r2) s
| lang_alt_r r1 r2 s : lang r2 s -> lang (Alt r1 r2) s
| lang_star_nil r : lang (Star r) ""
| lang_star_app r s1 s2 : lang r s1 -> lang (Star r) s2 -> lang (Star r) (s1 ++ s2).

(** ** Numbers

    A number of the language is a binary64 float.  The numbers of the job
    hold whole values and are kept as [Z]; a quotient is kept as the float it
    rounds to, the pair [(m, e)] standing for [m * 2 ^ e].  Each operation is
    the exact one followed by rounding to the nearest float, ties to the even
    mantissa. *)

Definition float : Type := (Z * Z)%type.

(** The float nearest to [n / d], for [0 <= n] and [0 < d]: 53 bits of
    mantissa, the exponent no less than that of the subnormal numbers.  (Past
    the largest finite float the language has [Infinity]; no number of the
    job gets there: its quotients are at most 1 and its sums add less than
    thirty to a float.) *)
Definition nearest (n d : Z) : float :=
  let scaled (e : Z) :=
    if (0 <=? e)%Z then (n, d * 2 ^ e)%Z else (n * 2 ^ (- e), d)%Z in
  let e0 := (Z.log2 n - Z.log2 d - 53)%Z in
  let e1 :=
    if (2 ^ 53 <=? fst (scaled e0) / snd (scaled e0))%Z then (e0 + 1)%Z else e0 in
  let e := Z.max e1 (-1074) in
  let m := (fst (scaled e) / snd (scaled e))%Z in
  let r := (fst (scaled e) mod snd (scaled e))%Z in
  (if (2 * r <? snd (scaled e))%Z then m
   else if (snd (scaled e) <? 2 * r)%Z then (m + 1)%Z
   else if Z.even m then m else (m + 1)%Z,
   e).

(** [a / b] on whole numbers that are floats. *)
Definition divide (a b : Z) : float := nearest a b.

(** [k * x] for a whole [k]. *)
Definition times (k : Z) (x : float) : float :=
  let (m, e) := x in
  if (0 <=? e)%Z then nearest (k * m * 2 ^ e) 1 else nearest (k * m) (2 ^ (- e)).

(** [Math.round(x)] for [0 <= x]: the nearest whole number, a half going up. *)
Definition Math_round (x : float) : Z :=
  let (m, e) := x in
  if (0 <=? e)%Z then (m * 2 ^ e)%Z else ((2 * m + 2 ^ (- e)) / 2 ^ (1 - e))%Z.

(** A whole number read as a float: itself up to [2 ^ 53], the nearest float
    beyond. *)
Definition to_double (z : Z) : Z :=
  if (Z.abs z <=? 2 ^ 53)%Z then z
  else let (m, e) := nearest (Z.abs z) 1 in (Z.sgn z * (m * 2 ^ e))%Z.

(** [x + y] on whole numbers that are floats. *)
Definition add (x y : Z) : Z := to_double (x + y).

End Js.

(* ================================================================== *)
(** * The fuzzy scorers *)
(* ================================================================== *)

(** The two scorers the job calls, [fuzz.ratio] and [fuzz.partial_ratio]:
    each takes two strings and returns a whole score from 0 to 100. *)
Class Fuzz : Type := {
  ratio : string -> string -> Z;
  partial_ratio : string -> string -> Z
}.

(** A model of the fuzzball library with its default options
    ([full_process] on, [subcost] 2, difflib's matching blocks with
    [autojunk]), following the library's documented algorithm.  The quotient
    of [_ratio] is taken in floating point, as the library takes it. *)
Module Fuzzball.

Local Close Scope string_scope.
Import Js.

(** Letters and numbers among the code units modelled. *)
Definition is_alnum (c : ascii) : bool :=
  is_digit c || is_alpha c
  || (code c =? 170) || (code c =? 181) || (code c =? 186)
  || between 192 214 c || between 216 246 c || between 248 255 c
  || between 178 179 c || (code c =? 185) || between 188 190 c.

(** [toLowerCase] on one code unit. *)
Definition to_lower (c : ascii) : ascii :=
  if is_upper c || (between 192 222 c && negb (code c =? 215))
  then ascii_of_nat (code c + 32) else c.

Definition space : ascii := " "%char.

(** [replace(/\s+/g, ' ')] on text whose only white space is the space. *)
Fixpoint collapse (l : list ascii) : list ascii :=
  match l with
  | [] => []
  | c :: l' =>
      if Ascii.eqb c space then
        match l' with
        | d :: _ => if Ascii.eqb d space then collapse l' else c :: collapse l'
        | [] => [c]
        end
      else c :: collapse l'
  end.

Fixpoint trim_left (l : list ascii) : list ascii :=
  match l with
  | [] => []
  | c :: l' => if Ascii.eqb c space then trim_left l' else l
  end.

Definition trim_both (l : list ascii) : list ascii :=
  rev (trim_left (rev (trim_left l))).

(** What [full_process] keeps: its class is written [[^\pN|\pL]], so
    besides the numbers and the letters the bar is kept too. *)
Definition is_kept (c : ascii) : bool := is_alnum c || (code c =? 124).

(** [full_process]: what is not kept becomes a space, the text is
    lower-cased, runs of spaces are collapsed, both ends trimmed. *)
Definition full_process (s : string) : list ascii :=
  trim_both
    (collapse
       (map (fun c => if is_kept c then to_lower c else space)
            (list_ascii_of_string s))).

(** One row of the edit-distance table: [prev] is the row above from column
    [j-1] on, [left] the entry to the left. *)
Fixpoint leven_row (a : ascii) (t : list ascii) (prev : list nat) (left : nat)
  : list nat :=
  match t, prev with
  | b :: t', d :: ((u :: _) as prev') =>
      let x := Nat.min (Nat.min (u + 1) (left + 1))
                       (d + if Ascii.eqb a b then 0 else 2) in
      x :: leven_row a t' prev' x
  | _, _ => []
  end.

(** [_leven] with insertion and deletion at cost 1, substitution at cost 2. *)
Definition leven (s t : list ascii) : nat :=
  last
    (fold_left
       (fun row a => let first := hd 0 row + 1 in first :: leven_row a t row first)
       s (seq 0 (S (List.length t))))
    0.

(** [Math.round(100 * (num / den))], each step in floating point. *)
Definition round_percent (num den : nat) : nat :=
  Z.to_nat (Math_round (times 100 (divide (Z.of_nat num) (Z.of_nat den)))).

(** [_ratio]: 0 on an empty string. *)
Definition ratio_ (s t : list ascii) : nat :=
  match s, t with
  | [], _ => 0
  | _, [] => 0
  | _, _ =>
      let lensum := List.length s + List.length t in
      round_percent (lensum - leven s t) lensum
  end.

(** *** difflib's SequenceMatcher *)

(** A matching block [(i, j, k)]: [a[i:i+k] = b[j:j+k]]. *)
Record Match : Type := { m_a : nat; m_b : nat; m_size : nat }.

Definition count_char (c : ascii) (l : list ascii) : nat :=
  List.length (filter (Ascii.eqb c) l).

(** [autojunk]: in a second sequence of 200 elements or more, an element
    that occurs more than [n / 100 + 1] times is popular and starts no
    match. *)
Definition popular (b : list ascii) (c : ascii) : bool :=
  (200 <=? List.length b) && (List.length b / 100 + 1 <? count_char c b).

(** One row of [j2len]: entry [j] is the List.length of the longest match that
    ends at [a[i]] and [b[j]]; [diag] is the entry [j-1] of the row above. *)
Fixpoint j2len_row (b0 : list ascii) (blo bhi : nat) (ai : ascii)
    (b : list ascii) (j diag : nat) (prev : list nat) : list nat :=
  match b, prev with
  | bj :: b', pj :: prev' =>
      (if (blo <=? j) && (j <? bhi) && Ascii.eqb ai bj && negb (popular b0 bj)
       then S diag else 0)
        :: j2len_row b0 blo bhi ai b' (S j) pj prev'
  | _, _ => []
  end.

(** The best block so far, updated along a row in ascending [j] by
    [if k > bestsize]. *)
Fixpoint best_of_row (i j : nat) (row : list nat) (best : Match) : Match :=
  match row with
  | [] => best
  | k :: row' =>
      best_of_row i (S j) row'
        (if m_size best <? k
         then {| m_a := i + 1 - k; m_b := j + 1 - k; m_size := k |}
         else best)
  end.

Fixpoint scan_rows (b : list ascii) (alo ahi blo bhi : nat) (a : list ascii)
    (i : nat) (j2len : list nat) (best : Match) : Match :=
  match a with
  | [] => best
  | ai :: a' =>
      if (alo <=? i) && (i <? ahi) then
        let row := j2len_row b blo bhi ai b 0 0 j2len in
        scan_rows b alo ahi blo bhi a' (S i) row (best_of_row i 0 row best)
      else scan_rows b alo ahi blo bhi a' (S i) j2len best
  end.

Definition at_ (l : list ascii) (i : nat) : ascii := nth i l zero.

Fixpoint extend_left (a b : list ascii) (alo blo fuel : nat) (m : Match) : Match :=
  match fuel with
  | 0 => m
  | S fuel' =>
      if (alo <? m_a m) && (blo <? m_b m)
         && Ascii.eqb (at_ a (m_a m - 1)) (at_ b (m_b m - 1))
      then extend_left a b alo blo fuel'
             {| m_a := m_a m - 1; m_b := m_b m - 1; m_size := m_size m + 1 |}
      else m
  end.

Fixpoint extend_right (a b : list ascii) (ahi bhi fuel : nat) (m : Match) : Match :=
  match fuel with
  | 0 => m
  | S fuel' =>
      if (m_a m + m_size m <? ahi) && (m_b m + m_size m <? bhi)
         && Ascii.eqb (at_ a (m_a m + m_size m)) (at_ b (m_b m + m_size m))
      then extend_right a b ahi bhi fuel'
             {| m_a := m_a m; m_b := m_b m; m_size := m_size m + 1 |}
      else m
  end.

(** [find_longest_match(alo, ahi, blo, bhi)]; no element is junk, so only the
    two loops that extend over equal elements run. *)
Definition find_longest_match (a b : list ascii) (alo ahi blo bhi : nat) : Match :=
  let best :=
    scan_rows b alo ahi blo bhi a 0 (repeat 0 (List.length b))
      {| m_a := alo; m_b := blo; m_size := 0 |} in
  extend_right a b ahi bhi (List.length a)
    (extend_left a b alo blo (List.length a) best).

(** The blocks found by splitting around the longest match, in ascending
    position (the order [sort] gives them). *)
Fixpoint blocks (fuel : nat) (a b : list ascii) (alo ahi blo bhi : nat)
  : list Match :=
  match fuel with
  | 0 => []
  | S fuel' =>
      let m := find_longest_match a b alo ahi blo bhi in
      if m_size m =? 0 then []
      else
        (if (alo <? m_a m) && (blo <? m_b m)
         then blocks fuel' a b alo (m_a m) blo (m_b m) else [])
        ++ [m]
        ++ (if (m_a m + m_size m <? ahi) && (m_b m + m_size m <? bhi)
            then blocks fuel' a b (m_a m + m_size m) ahi (m_b m + m_size m) bhi
            else [])
  end.

(** Adjacent blocks are merged; [cur] is the block being grown. *)
Fixpoint collapse_blocks (cur : Match) (l : list Match) : list Match :=
  match l with
  | [] => if m_size cur =? 0 then [] else [cur]
  | m :: l' =>
      if (m_a cur + m_size cur =? m_a m) && (m_b cur + m_size cur =? m_b m)
      then collapse_blocks
             {| m_a := m_a cur; m_b := m_b cur; m_size := m_size cur + m_size m |} l'
      else (if m_size cur =? 0 then [] else [cur]) ++ collapse_blocks m l'
  end.

(** [getMatchingBlocks()], closed by the block [(la, lb, 0)]. *)
Definition get_matching_blocks (a b : list ascii) : list Match :=
  collapse_blocks {| m_a := 0; m_b := 0; m_size := 0 |}
    (blocks (S (List.length a)) a b 0 (List.length a) 0 (List.length b))
  ++ [{| m_a := List.length a; m_b := List.length b; m_size := 0 |}].

(** [longer.substring(start, start + n)] *)
Definition substring (start n : nat) (l : list ascii) : list ascii :=
  firstn n (skipn start l).

(** The loop of [_partial_ratio] over the blocks: 100 as soon as one window
    scores above 99.5, else the greatest score. *)
Fixpoint best_window (shorter longer : list ascii) (bs : list Match) (best : nat)
  : nat :=
  match bs with
  | [] => best
  | m :: bs' =>
      let long_start := m_b m - m_a m in
      let r := ratio_ shorter (substring long_start (List.length shorter) longer) in
      if 100 <=? r then 100
      else best_window shorter longer bs' (Nat.max best r)
  end.

Definition partial_ratio_ (s t : list ascii) : nat :=
  match s, t with
  | [], _ => 0
  | _, [] => 0
  | _, _ =>
      let shorter := if List.length s <=? List.length t then s else t in
      let longer := if List.length s <=? List.length t then t else s in
      best_window shorter longer (get_matching_blocks shorter longer) 0
  end.

#[export] Instance fuzzball : Fuzz := {
  ratio s t := Z.of_nat (ratio_ (full_process s) (full_process t));
  partial_ratio s t := Z.of_nat (partial_ratio_ (full_process s) (full_process t))
}.

End Fuzzball.

(* ================================================================== *)
(** * The job *)
(* ================================================================== *)

Module Launch.
(** A launch document of the registry, as far as the job reads it; the
    flight number is a whole number. *)
Record t : Type := mk {
  id : string;
  name : string;
  flight_number : Z;
  upcoming : bool;
  auto_update : bool
}.
End Launch.

Module Launchpad.
(** A launchpad document of the registry; an empty [timezone] stands for any
    falsy value of the field (empty, null or missing). *)
Record t : Type := mk {
  id : string;
  timezone : string
}.
End Launchpad.

(** [date_precision] *)
Inductive Precision : Type := Hour | Day | Month | Half | Quarter | Year.

(** The calls into moment, kept as terms: what text is parsed with which
    formats and in which zone it is rendered. *)
Inductive MomentExpr : Type :=
| moment (input : string) (formats : list string)
| moment_tz (m : MomentExpr) (zone : string)
| tz (m : MomentExpr) (zone : string).

Inductive MomentValue : Type :=
| unix (m : MomentExpr)
| toISOString (m : MomentExpr)
| format (m : MomentExpr).

Module Update.
(** [rawUpdate], the body of the patch. *)
Record t : Type := mk {
  flight_number : Z;
  date_unix : MomentValue;
  date_utc : MomentValue;
  date_local : MomentValue;
  date_precision : Precision;
  launchpad : string;
  tbd : bool
}.
End Update.

(** The requests sent through got. *)
Inductive Request : Type :=
| LaunchesQuery
| WikiGet
| LaunchpadsQuery (name : string)
| LaunchesPatch (id : string) (rawUpdate : Update.t)
| HealthcheckGet (url : string).

(** What the job can throw: its own three errors, a property read or a
    method called on [undefined], and a request that got rejects. *)
Inductive Error : Type :=
| BrokenWikiSelector (wiki : string)
| NoDateMatch (cleanedwikiDate : string)
| NoLaunchpadMatch (launchpad : option string)
| TypeError
| RequestError (r : Request).

Inductive Result (A : Type) : Type :=
| Ok (a : A)
| Throw (e : Error).
Arguments Ok {A} a.
Arguments Throw {A} e.

(** What an observer sees of a run, in order. *)
Inductive Event : Type :=
| Sent (r : Request)
| LoggerInfo (launch : string) (rawUpdate : Update.t)
| ConsoleLog (error : Error).

(** The services behind got: each answers from the state [W] of the outside
    world and may change it; [None] and [false] are a rejected request.
    [wiki_get] stands for the page fetch followed by cheerio's selection of
    the manifest table's text. *)
Record Services (W : Type) : Type := {
  launches_query : W -> W * option (list Launch.t);
  wiki_get : W -> W * option string;
  launchpads_query : string -> W -> W * option (list Launchpad.t);
  launches_patch : string -> Update.t -> W -> W * bool;
  healthcheck_get : string -> W -> W * bool
}.
Arguments launches_query {W} _ _.
Arguments wiki_get {W} _ _.
Arguments launchpads_query {W} _ _ _.
Arguments launches_patch {W} _ _ _ _.
Arguments healthcheck_get {W} _ _ _.

Module Upcoming.

Import Js.
Local Close Scope string_scope.

(** ** The fuzzy name matcher (lines 78-84) *)

(** [/starlink/i] *)
Definition starlinkPattern : regex := word_ci "starlink".

(** A wiki payload is taken for the launch when the partial ratio is 100 and,
    for a name of the Starlink family, the full ratio is 100 too. *)
Definition matches {F : Fuzz} (name wikiPayload : string) : bool :=
  (partial_ratio name wikiPayload =? 100)%Z
  && negb (search starlinkPattern name
           && negb (ratio name wikiPayload =? 100)%Z).

(** ** The date precision (lines 91-144) *)

Definition cats (l : list regex) : regex := fold_right Cat Eps l.

Definition spaces : regex := Star (Cls is_space).
Definition digits4 : regex := rep 4 (Cls is_digit).
Definition digits2 : regex := rep 2 (Cls is_digit).
(** [[0-9]{1,2}] *)
Definition dayNumber : regex := range 1 2 (Cls is_digit).
(** [([a-z]{3}|[a-z]{3,9})] *)
Definition monthName : regex :=
  Alt (rep 3 (Cls is_alpha)) (range 3 9 (Cls is_alpha)).
(** [(\[?\s*[0-9]{2}:[0-9]{2}\s*\]?)] *)
Definition clock : regex :=
  cats [opt (Cls (is_char "[")); spaces; digits2; Cls (is_char ":"); digits2;
        spaces; opt (Cls (is_char "]"))].

(** [/^.*(tbd|tba).*$/i] *)
Definition tbdPattern : regex :=
  cats [Star (Cls is_dot); Alt (word_ci "tbd") (word_ci "tba"); Star (Cls is_dot)].
(** [/^\s*[0-9]{4}\s*$/i] *)
Definition yearPattern : regex := cats [spaces; digits4; spaces].
(** [/^\s*[0-9]{4}\s*([a-z]{3}|[a-z]{3,9})\s*$/i] *)
Definition monthPattern : regex :=
  cats [spaces; digits4; spaces; monthName; spaces].
(** [/^\s*[0-9]{4}\s*([a-z]{3}|[a-z]{3,9})\s*[0-9]{1,2}\s*$/i] *)
Definition dayPattern : regex :=
  cats [spaces; digits4; spaces; monthName; spaces; dayNumber; spaces].
(** [/^\s*[0-9]{4}\s*([a-z]{3}|[a-z]{3,9})\s*[0-9]{1,2}\s*(\[?\s*[0-9]{2}:[0-9]{2}\s*\]?)\s*$/i] *)
Definition hourPattern : regex :=
  cats [spaces; digits4; spaces; monthName; spaces; dayNumber; spaces; clock;
        spaces].

(** [tbd] (lines 110-114) *)
Definition tbd_of (wikiDate : string) : bool := test tbdPattern wikiDate.

(** [/(~|early|mid|late|end|tbd|tba)/gi] *)
Definition extraStuff : list string :=
  ["~"; "early"; "mid"; "late"; "end"; "tbd"; "tba"]%string.

(** [cleanedwikiDate] (line 118) *)
Definition cleanedwikiDate (wikiDate : string) : string :=
  trim (before "/" (replace_all extraStuff " " wikiDate)).

(** Lines 121-144: the precision, with the value [wikiDate] holds after the
    chain, or the error thrown. *)
Definition set_precision (cleaned wikiDate : string) : Result (string * Precision) :=
  if includes "Q" cleaned then Ok (replace_first "Q" "" wikiDate, Quarter)
  else if includes "H1" cleaned then Ok (replace_first "H1" "1" wikiDate, Half)
  else if includes "H2" cleaned then Ok (replace_first "H2" "3" wikiDate, Half)
  else if test yearPattern cleaned then Ok (wikiDate, Year)
  else if test monthPattern cleaned then Ok (wikiDate, Month)
  else if test dayPattern cleaned then Ok (wikiDate, Day)
  else if test hourPattern cleaned then Ok (wikiDate, Hour)
  else Throw (NoDateMatch cleaned).

(** ** The launchpad (lines 150-215) *)

(** The name queried for a wiki launchpad cell; [None] is the final [else]. *)
Definition launchpad_name (launchpad : option string) : option string :=
  match launchpad with
  | None => None
  | Some l =>
      if (l =? "SLC-40") || (l =? "SLC-40 / LC-39A") || (l =? "SLC-40 / BC")
         || (l =? "SLC-40, LC-39A")
      then Some "CCAFS SLC 40"
      else if (l =? "LC-39A") || (l =? "LC-39A / BC") || (l =? "LC-39A / SLC-40")
      then Some "KSC LC 39A"
      else if (l =? "SLC-4E")
      then Some "VAFB SLC 4E"
      else if (l =? "BC") || (l =? "BC / LC-39A") || (l =? "BC / SLC-40")
      then Some "STLS"
      else None
  end%string.

(** ** The date handed to moment (lines 218-221) *)

(** [/(-|\[|\]|~|early|mid|late|end)/gi] *)
Definition punctuation : list string :=
  ["-"; "["; "]"; "~"; "early"; "mid"; "late"; "end"]%string.

Definition parsedDate (wikiDate : string) : string :=
  (trim (before "/" (replace_all punctuation " " wikiDate)) ++ " +0000")%string.

Definition formats : list string :=
  ["YYYY MMM D HH:mm Z"; "YYYY MMM D Z"; "YYYY MMM Z"; "YYYY Q Z"; "YYYY Z"]%string.

(** ** The rows of the wiki (lines 52-61) *)

Definition wikiRow (wiki : string) : list string :=
  filter (fun v => negb (v =? "")%string) (split LF wiki).

Definition allWikiDates (wiki : string) : list string :=
  filter_index (fun index => index mod 8 =? 0) 0 (wikiRow wiki).
Definition wikiDates (wiki : string) : list string := firstn 30 (allWikiDates wiki).

Definition allWikiPayloads (wiki : string) : list string :=
  filter_index (fun index => (index + 3) mod 8 =? 0) 0 (wikiRow wiki).
Definition wikiPayloads (wiki : string) : list string := firstn 30 (allWikiPayloads wiki).

Definition allWikiLaunchpads (wiki : string) : list string :=
  filter_index (fun index => (index + 6) mod 8 =? 0) 0 (wikiRow wiki).
Definition wikiLaunchpads (wiki : string) : list string :=
  firstn 30 (allWikiLaunchpads wiki).

(** ** The base flight number (lines 38-39, 65-70) *)

Definition upcoming (docs : list Launch.t) : list Launch.t :=
  filter Launch.upcoming docs.
Definition past (docs : list Launch.t) : list Launch.t :=
  filter (fun doc => negb (Launch.upcoming doc)) docs.

(** [past[past.length - 1]] *)
Definition last_past (past : list Launch.t) : option Launch.t :=
  nth_error past (List.length past - 1).

(** [wikiPayloads[0]] is [undefined] on an empty manifest, which the scorer
    rates 0. *)
Definition baseFlightNumber {F : Fuzz} (past : list Launch.t)
    (wikiPayloads : list string) : Result Z :=
  match last_past past with
  | None => Throw TypeError
  | Some p =>
      let score :=
        match nth_error wikiPayloads 0 with
        | Some w => partial_ratio (Launch.name p) w
        | None => 0%Z
        end in
      if (score =? 100)%Z then Ok (Launch.flight_number p)
      else Ok (add (Launch.flight_number p) 1)
  end.

(** ** The driver *)

Section Driver.

Context {F : Fuzz} {W : Type}.
Variable services : Services W.
(** [process.env.UPCOMING_HEALTHCHECK] *)
Variable HEALTHCHECK : option string.

(** The state a run threads: the outside world, what has been observed so
    far (oldest first), and the array [flightNumbers]. *)
Record State : Type := {
  world : W;
  trace : list Event;
  flightNumbers : list Z
}.

Definition M (A : Type) : Type := State -> Result A * State.

Definition ret {A : Type} (a : A) : M A := fun st => (Ok a, st).
Definition throw {A : Type} (e : Error) : M A := fun st => (Throw e, st).
Definition bind {A B : Type} (m : M A) (k : A -> M B) : M B :=
  fun st =>
    match m st with
    | (Ok a, st') => k a st'
    | (Throw e, st') => (Throw e, st')
    end.
Definition lift {A : Type} (r : Result A) : M A := fun st => (r, st).

Notation "x <- m ;; k" := (bind m (fun x => k))
  (at level 61, m at next level, right associativity).
Notation "m ;; k" := (bind m (fun _ => k))
  (at level 61, right associativity).

Definition emit (e : Event) : M unit :=
  fun st =>
    (Ok tt, {| world := world st; trace := trace st ++ [e];
               flightNumbers := flightNumbers st |}).

(** [flightNumbers.push(n)] *)
Definition push_flight_number (n : Z) : M unit :=
  fun st =>
    (Ok tt, {| world := world st; trace := trace st;
               flightNumbers := flightNumbers st ++ [n] |}).

(** [await got...]: the request is observed, the service answers. *)
Definition await {A : Type} (r : Request) (serve : W -> W * option A) : M A :=
  fun st =>
    let (w', answer) := serve (world st) in
    let st' := {| world := w'; trace := trace st ++ [Sent r];
                  flightNumbers := flightNumbers st |} in
    match answer with
    | Some a => (Ok a, st')
    | None => (Throw (RequestError r), st')
    end.

Definition accepted (answer : W * bool) : W * option unit :=
  (fst answer, if snd answer then Some tt else None).

(** [for (const x of l) body(x)]: a throw leaves the loop. *)
Fixpoint for_of {A : Type} (body : A -> M unit) (l : list A) : M unit :=
  match l with
  | [] => ret tt
  | x :: l' => body x ;; for_of body l'
  end.

(** [try { body } catch (error) { handler(error) }] *)
Definition try_catch {A : Type} (body : M A) (handler : Error -> M A) : M A :=
  fun st =>
    match body st with
    | (Ok a, st') => (Ok a, st')
    | (Throw e, st') => handler e st'
    end.

(** Lines 150-215: the launchpad's id and time zone, from the first document
    of the query. *)
Definition resolve_launchpad (launchpad : option string) : M (string * string) :=
  match launchpad_name launchpad with
  | Some name =>
      launchpads <- await (LaunchpadsQuery name) (launchpads_query services name) ;;
      match launchpads with
      | doc :: _ => ret (Launchpad.id doc, Launchpad.timezone doc)
      | [] => throw TypeError
      end
  | None => throw (NoLaunchpadMatch launchpad)
  end.

(** Lines 223-231 *)
Definition rawUpdate (baseFlightNumber : Z) (wikiIndex : nat)
    (originalDate : string) (precision : Precision)
    (launchpadId timezone : string) (tbd : bool) : Update.t :=
  let time := moment (parsedDate originalDate) formats in
  let zone := moment_tz time "UTC" in
  let localTime := format (tz time timezone) in
  {| Update.flight_number := add baseFlightNumber (Z.of_nat wikiIndex);
     Update.date_unix := unix zone;
     Update.date_utc := toISOString zone;
     Update.date_local := localTime;
     Update.date_precision := precision;
     Update.launchpad := launchpadId;
     Update.tbd := tbd |}.

(** Line 221, [time.tz(timezone).format()]: with a zone that is falsy (the
    empty text stands for a zone that is empty, null or missing) [tz] is the
    getter, which gives [undefined] for a moment that has no zone of its own,
    and the call of [format] on it throws. *)
Definition localTime (timezone : string) : Result unit :=
  if (timezone =? "")%string then Throw TypeError else Ok tt.

(** Lines 77-247: one wiki payload against one launch.  The text rewritten by
    [set_precision] stays in the local [wikiDate]; line 218 reads the cell of
    [wikiDates] again. *)
Definition wiki_row (baseFlightNumber : Z) (wikiDates wikiLaunchpads : list string)
    (launch : Launch.t) (entry : nat * string) : M unit :=
  let (wikiIndex, wikiPayload) := entry in
  if matches (Launch.name launch) wikiPayload then
    match nth_error wikiDates wikiIndex with
    | None => throw TypeError
    | Some cell =>
        let tbd := tbd_of cell in
        r <- lift (set_precision (cleanedwikiDate cell) cell) ;;
        let (wikiDate, precision) := r : string * Precision in
        push_flight_number (add baseFlightNumber (Z.of_nat wikiIndex)) ;;
        pad <- resolve_launchpad (nth_error wikiLaunchpads wikiIndex) ;;
        let (launchpadId, timezone) := pad : string * string in
        lift (localTime timezone) ;;
        let u := rawUpdate baseFlightNumber wikiIndex cell precision
                   launchpadId timezone tbd in
        emit (LoggerInfo (Launch.name launch) u) ;;
        await (LaunchesPatch (Launch.id launch) u)
          (fun w => accepted (launches_patch services (Launch.id launch) u w))
    end
  else ret tt.

(** Lines 75-249 *)
Definition launch_rows (baseFlightNumber : Z)
    (wikiDates wikiPayloads wikiLaunchpads : list string) (launch : Launch.t)
  : M unit :=
  if Launch.auto_update launch then
    for_of (wiki_row baseFlightNumber wikiDates wikiLaunchpads launch)
      (entries wikiPayloads)
  else ret tt.

Definition all_launches (baseFlightNumber : Z)
    (wikiDates wikiPayloads wikiLaunchpads : list string)
    (upcoming : list Launch.t) : M unit :=
  for_of (launch_rows baseFlightNumber wikiDates wikiPayloads wikiLaunchpads)
    upcoming.

(** Lines 23-249: the pass before the health check. *)
Definition reconcile : M unit :=
  docs <- await LaunchesQuery (launches_query services) ;;
  wiki <- await WikiGet (wiki_get services) ;;
  if (wiki =? "")%string then throw (BrokenWikiSelector wiki)
  else
    base <- lift (baseFlightNumber (past docs) (wikiPayloads wiki)) ;;
    all_launches base (wikiDates wiki) (wikiPayloads wiki) (wikiLaunchpads wiki)
      (upcoming docs).

(** Lines 251-253: an unset or empty variable is falsy. *)
Definition healthcheck : M unit :=
  match HEALTHCHECK with
  | Some url =>
      if (url =? "")%string then ret tt
      else await (HealthcheckGet url)
             (fun w => accepted (healthcheck_get services url w))
  | None => ret tt
  end.

(** [console.log(error)] *)
Definition console_log (error : Error) : M unit := emit (ConsoleLog error).

(** The exported function (lines 21-257); [Ok tt] is the promise resolved,
    [Throw e] the promise rejected with [e]. *)
Definition module_exports : M unit :=
  try_catch (reconcile ;; healthcheck) console_log.

Definition initial (w : W) : State :=
  {| world := w; trace := []; flightNumbers := [] |}.

End Driver.

Arguments State W : clear implicits.
Arguments M W A : clear implicits.

End Upcoming.

(* ================================================================== *)
(** * Vocabulary of the properties *)
(* ================================================================== *)

Module Spec.

Import Js Upcoming.
Local Open Scope list_scope.

(** The last character of [s] that is not white space. *)
Fixpoint last_nonspace (s : string) : option ascii :=
  match s with
  | "" => None
  | String c s' =>
      match last_nonspace s' with
      | Some d => Some d
      | None => if is_space c then None else Some c
      end
  end.

(** [s] contains the word [w], letter case ignored. *)
Fixpoint includes_ci (w s : string) : bool :=
  starts_with_ci w s ||
  match s with
  | "" => false
  | String _ s' => includes_ci w s'
  end.

(** The four date shapes tried from the most specific to the least. *)
Definition most_specific_first (cleaned : string) : option Precision :=
  if test hourPattern cleaned then Some Hour
  else if test dayPattern cleaned then Some Day
  else if test monthPattern cleaned then Some Month
  else if test yearPattern cleaned then Some Year
  else None.

Definition monthNames : list string :=
  ["January"; "February"; "March"; "April"; "May"; "June"; "July"; "August";
   "September"; "October"; "November"; "December"].

(** ** The shapes of a date, in words

    The four shapes said on the text itself, not by the patterns of the
    job: which pieces a date is made of, in which order. *)

(** White space only, possibly none. *)
Definition blank (s : string) : Prop := all is_space s = true.

(** Exactly [n] digits. *)
Definition digits (n : nat) (s : string) : Prop :=
  String.length s = n /\ all is_digit s = true.

(** A month: three to nine letters of either case. *)
Definition month_token (s : string) : Prop :=
  3 <= String.length s <= 9 /\ all is_alpha s = true.

(** A day of the month: one or two digits. *)
Definition day_token (s : string) : Prop :=
  1 <= String.length s <= 2 /\ all is_digit s = true.

(** The bracket [b], or nothing. *)
Definition bracket (b : ascii) (s : string) : Prop := s = ""%string \/ s = String b "".

(** HH:MM, bare or after "[", before "]", or both, blanks allowed between a
    bracket and the digits. *)
Definition clock_token (s : string) : Prop :=
  exists o b1 hh mm b2 c,
    s = (o ++ b1 ++ hh ++ ":" ++ mm ++ b2 ++ c)%string
    /\ bracket "[" o /\ blank b1 /\ digits 2 hh /\ digits 2 mm /\ blank b2
    /\ bracket "]" c.

(** [shape p s]: the text [s] has the shape of precision [p]: a year; a year
    and a month; a year, a month and a day; a year, a month, a day and a
    time; each piece possibly set off by blanks.  No shape stands for a
    quarter or a half. *)
Definition shape (p : Precision) (s : string) : Prop :=
  match p with
  | Year =>
      exists b0 y b1,
        s = (b0 ++ y ++ b1)%string /\ blank b0 /\ digits 4 y /\ blank b1
  | Month =>
      exists b0 y b1 m b2,
        s = (b0 ++ y ++ b1 ++ m ++ b2)%string
        /\ blank b0 /\ digits 4 y /\ blank b1 /\ month_token m /\ blank b2
  | Day =>
      exists b0 y b1 m b2 d b3,
        s = (b0 ++ y ++ b1 ++ m ++ b2 ++ d ++ b3)%string
        /\ blank b0 /\ digits 4 y /\ blank b1 /\ month_token m /\ blank b2
        /\ day_token d /\ blank b3
  | Hour =>
      exists b0 y b1 m b2 d b3 c b4,
        s = (b0 ++ y ++ b1 ++ m ++ b2 ++ d ++ b3 ++ c ++ b4)%string
        /\ blank b0 /\ digits 4 y /\ blank b1 /\ month_token m /\ blank b2
        /\ day_token d /\ blank b3 /\ clock_token c /\ blank b4
  | Half | Quarter => False
  end.

(** The wiki launchpad cells the job knows, and the launchpads queried. *)
Definition site_labels : list string :=
  ["SLC-40"; "SLC-40 / LC-39A"; "SLC-40 / BC"; "SLC-40, LC-39A";
   "LC-39A"; "LC-39A / BC"; "LC-39A / SLC-40";
   "SLC-4E";
   "BC"; "BC / LC-39A"; "BC / SLC-40"].

Definition facilities : list string :=
  ["CCAFS SLC 40"; "KSC LC 39A"; "VAFB SLC 4E"; "STLS"].

(** The precedence table: each launchpad cell with the launchpad it stands
    for, a cell that names two sites with the launchpad of the first. *)
Definition precedence_table : list (string * string) :=
  [("SLC-40", "CCAFS SLC 40"); ("SLC-40 / LC-39A", "CCAFS SLC 40");
   ("SLC-40 / BC", "CCAFS SLC 40"); ("SLC-40, LC-39A", "CCAFS SLC 40");
   ("LC-39A", "KSC LC 39A"); ("LC-39A / BC", "KSC LC 39A");
   ("LC-39A / SLC-40", "KSC LC 39A");
   ("SLC-4E", "VAFB SLC 4E");
   ("BC", "STLS"); ("BC / LC-39A", "STLS"); ("BC / SLC-40", "STLS")]%string.

(** The launchpad the table gives for a cell, if any. *)
Definition designated (label : string) : option string :=
  option_map snd
    (find (fun entry => (fst entry =? label)%string) precedence_table).

(** The first site named in a cell: the text before any "/" or ",". *)
Definition first_site (label : string) : string :=
  trim (before "," (before "/" label)).

Definition is_heartbeat (e : Event) : bool :=
  match e with
  | Sent (HealthcheckGet _) => true
  | _ => false
  end.

(** How often the health check was called in a trace. *)
Definition heartbeats (t : list Event) : nat := List.length (filter is_heartbeat t).

(** The requests and log entries of the rows: what the loop over launches
    and payloads may emit. *)
Definition is_row_event (e : Event) : bool :=
  match e with
  | Sent (LaunchpadsQuery _) => true
  | Sent (LaunchesPatch _ _) => true
  | LoggerInfo _ _ => true
  | _ => false
  end.

(** The patch [(id, u)] belongs to row [i] of the manifest window: a launch
    with that id, open to updates, matches the payload of the row, the number
    is [base + i] and the date fields come from the date cell of the row. *)
Definition patch_of_row {F : Fuzz} (base : Z) (dates payloads : list string)
    (launches : list Launch.t) (i : nat) (id : string) (u : Update.t) : Prop :=
  exists launch payload cell,
    In launch launches /\ Launch.auto_update launch = true
    /\ Launch.id launch = id
    /\ nth_error payloads i = Some payload
    /\ matches (Launch.name launch) payload = true
    /\ nth_error dates i = Some cell
    /\ Update.flight_number u = add base (Z.of_nat i)
    /\ Update.date_unix u = unix (moment_tz (moment (parsedDate cell) formats) "UTC")
    /\ Update.tbd u = tbd_of cell.

Definition number_le (a b : Launch.t) : Prop :=
  (Launch.flight_number a <= Launch.flight_number b)%Z.

(** Ascending flight numbers, as the query asks the registry to sort. *)
Definition ascending (docs : list Launch.t) : Prop :=
  Sorted.StronglySorted number_le docs.

(** What the rows may emit, with every patch numbered after its row. *)
Definition row_event {F : Fuzz} (base : Z) (dates payloads : list string)
    (launches : list Launch.t) (e : Event) : Prop :=
  is_row_event e = true
  /\ forall id u, e = Sent (LaunchesPatch id u) ->
     exists i, patch_of_row base dates payloads launches i id u.



(** [steps P m]: a run of [m] only adds to the trace and to [flightNumbers],
    and every event it adds satisfies [P]. *)
Definition steps {W A : Type} (P : Event -> Prop) (m : M W A) : Prop :=
  forall st r st', m st = (r, st') ->
  exists t f, trace st' = trace st ++ t
              /\ flightNumbers st' = flightNumbers st ++ f
              /\ Forall P t.


End Spec.

(* ================================================================== *)
(** * A small registry and manifest *)
(* ================================================================== *)

Module Sample.

Import Upcoming.

Definition line (cell : string) : string := cell ++ String Js.LF "".

(** One row of the manifest table: eight cells, the date first, the
    launchpad third, the payload sixth. *)
Definition row (date launchpad payload : string) : string :=
  line date ++ line "F9" ++ line launchpad ++ line "LEO" ++ line "15 t"
  ++ line payload ++ line "SpaceX" ++ line "-".

Definition docs : list Launch.t :=
  [Launch.mk "p1" "Mission X" 100 false false;
   Launch.mk "u1" "Starlink 23" 101 true true;
   Launch.mk "u2" "Starlink 23" 102 true true;
   Launch.mk "u3" "GPS III" 103 true true].

Definition wiki : string :=
  row "2021 Mar" "SLC-40" "Starlink 23"
  ++ row "TBD 2021 H2" "LC-39A / BC" "GPS III SV05".

(** Services that always answer; the world has no state. *)
Definition services (wiki : string) : Services unit := {|
  launches_query := fun w => (w, Some docs);
  wiki_get := fun w => (w, Some wiki);
  launchpads_query := fun name w =>
    (w, Some [Launchpad.mk ("id of " ++ name) "America/New_York"]);
  launches_patch := fun _ _ w => (w, true);
  healthcheck_get := fun _ w => (w, true)
|}.



(** A manifest whose first date cell ends in a carriage return. *)
Definition cr_wiki : string :=
  row ("TBD 2021" ++ String Js.CR "") "SLC-40" "Starlink 23".

(** A manifest whose first date cell is tentative and names no date. *)
Definition q_wiki : string := row "TBD Q" "SLC-40" "Starlink 23".

(** A registry that answers the past launches out of order. *)
Definition unsorted_docs : list Launch.t :=
  [Launch.mk "p1" "Mission X" 200 false false;
   Launch.mk "p2" "Mission Y" 100 false false;
   Launch.mk "u1" "Starlink 23" 201 true true].

(** A registry whose last flight number is [2 ^ 53]. *)
Definition far_docs : list Launch.t :=
  [Launch.mk "p1" "Mission X" 9007199254740992 false false;
   Launch.mk "u3" "GPS III" 9007199254740994 true true].

Definition services_of (docs : list Launch.t) (wiki : string) : Services unit := {|
  launches_query := fun w => (w, Some docs);
  wiki_get := fun w => (w, Some wiki);
  launchpads_query := fun name w =>
    (w, Some [Launchpad.mk ("id of " ++ name) "America/New_York"]);
  launches_patch := fun _ _ w => (w, true);
  healthcheck_get := fun _ w => (w, true)
|}.

(** A registry whose launchpad documents carry no time zone. *)
Definition services_without_zone : Services unit := {|
  launches_query := fun w => (w, Some docs);
  wiki_get := fun w => (w, Some wiki);
  launchpads_query := fun name w => (w, Some [Launchpad.mk ("id of " ++ name) ""]);
  launches_patch := fun _ _ w => (w, true);
  healthcheck_get := fun _ w => (w, true)
|}.

End Sample.

(* ================================================================== *)
(** * Vocabulary of the further properties *)
(* ================================================================== *)

Module More.

Import Js Upcoming Spec.

(** The text of a table: each cell on a line of its own. *)
Fixpoint unlines (cells : list string) : string :=
  match cells with
  | [] => ""
  | c :: cells' => c ++ String LF (unlines cells')
  end.

(** A cell that survives the split into lines as it is: not empty and
    without a line feed. *)
Definition is_cell (c : string) : bool :=
  negb (c =? "") && negb (has (is_char LF) c).

(** The cells at place [k] of the rows of a table. *)
Definition column (k : nat) (table : list (list string)) : list string :=
  map (fun row => nth k row "") table.

(** No alternative of [alts] matches anywhere in [s], letter case ignored. *)
Fixpoint no_alt (alts : list string) (s : string) : bool :=
  match first_alt alts s with
  | Some _ => false
  | None =>
      match s with
      | "" => true
      | String _ s' => no_alt alts s'
      end
  end.

(** A word a replacement by a space cannot complete: it is not empty and no
    character of it matches the space. *)
Definition plain_word (w : string) : bool :=
  negb (w =? "") && all (fun a => negb (ci_eq a " ")) w.

(** The characters the second cleaning takes out of a date. *)
Definition is_punctuation (c : ascii) : bool :=
  is_char "-" c || is_char "[" c || is_char "]" c || is_char "~" c
  || is_char "/" c.

(** The error a result carries, if any. *)
Definition thrown {A : Type} (r : Result A) : option Error :=
  match r with
  | Ok _ => None
  | Throw e => Some e
  end.

(** [runs Q m]: a run of [m] only adds to the trace and to [flightNumbers],
    and [Q] holds of the error thrown, the events added and the numbers
    added. *)
Definition runs {W A : Type} (Q : option Error -> list Event -> list Z -> Prop)
    (m : M W A) : Prop :=
  forall st r st', m st = (r, st') ->
  exists t f, trace st' = (trace st ++ t)%list
              /\ flightNumbers st' = (flightNumbers st ++ f)%list
              /\ Q (thrown r) t f.

(** [Q] holds of a step that does nothing and of a normal run followed by
    any run. *)
Definition composes (Q : option Error -> list Event -> list Z -> Prop) : Prop :=
  Q None [] []
  /\ forall e t1 f1 t2 f2,
       Q None t1 f1 -> Q e t2 f2 -> Q e (t1 ++ t2)%list (f1 ++ f2)%list.

(** What one payload of the wiki against one launch can come to (lines
    77-247): the error thrown, the events and the numbers added. *)
Inductive row_outcome {F : Fuzz} {W : Type} (services : Services W) (base : Z)
    (dates pads : list string) (launch : Launch.t) (i : nat) (payload : string)
  : option Error -> list Event -> list Z -> Prop :=
| row_skipped :
    matches (Launch.name launch) payload = false ->
    row_outcome services base dates pads launch i payload None [] []
| row_no_date_cell :
    matches (Launch.name launch) payload = true ->
    nth_error dates i = None ->
    row_outcome services base dates pads launch i payload (Some TypeError) [] []
| row_no_precision cell e :
    matches (Launch.name launch) payload = true ->
    nth_error dates i = Some cell ->
    set_precision (cleanedwikiDate cell) cell = Throw e ->
    row_outcome services base dates pads launch i payload (Some e) [] []
| row_no_launchpad cell wikiDate precision :
    matches (Launch.name launch) payload = true ->
    nth_error dates i = Some cell ->
    set_precision (cleanedwikiDate cell) cell = Ok (wikiDate, precision) ->
    launchpad_name (nth_error pads i) = None ->
    row_outcome services base dates pads launch i payload
      (Some (NoLaunchpadMatch (nth_error pads i))) []
      [(add base (Z.of_nat i))]
| row_query_rejected cell wikiDate precision name w w' :
    matches (Launch.name launch) payload = true ->
    nth_error dates i = Some cell ->
    set_precision (cleanedwikiDate cell) cell = Ok (wikiDate, precision) ->
    launchpad_name (nth_error pads i) = Some name ->
    launchpads_query services name w = (w', None) ->
    row_outcome services base dates pads launch i payload
      (Some (RequestError (LaunchpadsQuery name)))
      [Sent (LaunchpadsQuery name)] [(add base (Z.of_nat i))]
| row_no_document cell wikiDate precision name w w' :
    matches (Launch.name launch) payload = true ->
    nth_error dates i = Some cell ->
    set_precision (cleanedwikiDate cell) cell = Ok (wikiDate, precision) ->
    launchpad_name (nth_error pads i) = Some name ->
    launchpads_query services name w = (w', Some []) ->
    row_outcome services base dates pads launch i payload (Some TypeError)
      [Sent (LaunchpadsQuery name)] [(add base (Z.of_nat i))]
| row_no_timezone cell wikiDate precision name w w' doc rest :
    matches (Launch.name launch) payload = true ->
    nth_error dates i = Some cell ->
    set_precision (cleanedwikiDate cell) cell = Ok (wikiDate, precision) ->
    launchpad_name (nth_error pads i) = Some name ->
    launchpads_query services name w = (w', Some (doc :: rest)) ->
    Launchpad.timezone doc = ""%string ->
    row_outcome services base dates pads launch i payload (Some TypeError)
      [Sent (LaunchpadsQuery name)] [(add base (Z.of_nat i))]
| row_patched cell wikiDate precision name w w' doc rest e :
    matches (Launch.name launch) payload = true ->
    nth_error dates i = Some cell ->
    set_precision (cleanedwikiDate cell) cell = Ok (wikiDate, precision) ->
    launchpad_name (nth_error pads i) = Some name ->
    launchpads_query services name w = (w', Some (doc :: rest)) ->
    Launchpad.timezone doc <> ""%string ->
    e = None
    \/ e = Some (RequestError
                   (LaunchesPatch (Launch.id launch)
                      (rawUpdate base i cell precision (Launchpad.id doc)
                         (Launchpad.timezone doc) (tbd_of cell)))) ->
    row_outcome services base dates pads launch i payload e
      [Sent (LaunchpadsQuery name);
       LoggerInfo (Launch.name launch)
         (rawUpdate base i cell precision (Launchpad.id doc)
            (Launchpad.timezone doc) (tbd_of cell));
       Sent (LaunchesPatch (Launch.id launch)
               (rawUpdate base i cell precision (Launchpad.id doc)
                  (Launchpad.timezone doc) (tbd_of cell)))]
      [(add base (Z.of_nat i))].

(** What the rows of all launches can come to together: the outcomes of
    rows of [launches] open to updates against payloads of [payloads], one
    after the other, the last one alone possibly throwing. *)
Inductive rows_outcome {F : Fuzz} {W : Type} (services : Services W) (base : Z)
    (dates payloads pads : list string) (launches : list Launch.t)
  : option Error -> list Event -> list Z -> Prop :=
| rows_done : rows_outcome services base dates payloads pads launches None [] []
| rows_step launch i payload e t1 f1 t2 f2 :
    In launch launches ->
    Launch.auto_update launch = true ->
    nth_error payloads i = Some payload ->
    row_outcome services base dates pads launch i payload None t1 f1 ->
    rows_outcome services base dates payloads pads launches e t2 f2 ->
    rows_outcome services base dates payloads pads launches e
      (t1 ++ t2)%list (f1 ++ f2)%list
| rows_thrown launch i payload e t f :
    In launch launches ->
    Launch.auto_update launch = true ->
    nth_error payloads i = Some payload ->
    row_outcome services base dates pads launch i payload (Some e) t f ->
    rows_outcome services base dates payloads pads launches (Some e) t f.

(** The flight numbers of the patches of a trace, in order. *)
Definition patch_numbers (t : list Event) : list Z :=
  flat_map (fun e => match e with
                     | Sent (LaunchesPatch _ u) => [Update.flight_number u]
                     | _ => []
                     end) t.

(** Every patch of the trace comes right after the log entry of the same
    update, itself right after a launchpad query. *)
Definition logged_before_sent (t : list Event) : Prop :=
  forall t1 id u t2,
    t = (t1 ++ Sent (LaunchesPatch id u) :: t2)%list ->
    exists t0 name launch,
      t1 = (t0 ++ [Sent (LaunchpadsQuery name); LoggerInfo launch u])%list.

(** Where a patch comes from: a launch open to updates and a row of the
    window whose payload matches its name, whose date has a precision and
    whose launchpad cell names a launchpad the registry knows; the update is
    the one built from that row. *)
Definition patch_from_row {F : Fuzz} {W : Type} (services : Services W)
    (base : Z) (dates payloads pads : list string) (launches : list Launch.t)
    (id : string) (u : Update.t) : Prop :=
  exists launch i payload cell label wikiDate precision name w w' doc rest,
    In launch launches
    /\ Launch.auto_update launch = true
    /\ Launch.id launch = id
    /\ nth_error payloads i = Some payload
    /\ matches (Launch.name launch) payload = true
    /\ nth_error dates i = Some cell
    /\ set_precision (cleanedwikiDate cell) cell = Ok (wikiDate, precision)
    /\ nth_error pads i = Some label
    /\ launchpad_name (Some label) = Some name
    /\ launchpads_query services name w = (w', Some (doc :: rest))
    /\ Launchpad.timezone doc <> ""%string
    /\ u = rawUpdate base i cell precision (Launchpad.id doc)
             (Launchpad.timezone doc) (tbd_of cell).

(** The errors logged in a trace, in order. *)
Definition errors_logged (t : list Event) : list Error :=
  flat_map (fun e => match e with ConsoleLog error => [error] | _ => [] end) t.

(** The requests a pass sends after the first two. *)
Definition later_request (r : Request) : bool :=
  match r with
  | LaunchpadsQuery _ | LaunchesPatch _ _ | HealthcheckGet _ => true
  | LaunchesQuery | WikiGet => false
  end.

(** Why an error can be logged by a pass in which the registry answered
    [docs] and the wiki [wiki]. *)
Definition error_cause {W : Type} (services : Services W)
    (docs : list Launch.t) (wiki : string) (t : list Event) (e : Error) : Prop :=
  (e = BrokenWikiSelector "" /\ wiki = "")
  \/ (e = TypeError
      /\ (past docs = []
          \/ (exists name w w', launchpads_query services name w = (w', Some []))
          \/ (exists name w w' doc rest,
                launchpads_query services name w = (w', Some (doc :: rest))
                /\ Launchpad.timezone doc = ""%string)))
  \/ (exists cell,
        In cell (wikiDates wiki)
        /\ set_precision (cleanedwikiDate cell) cell = Throw e
        /\ e = NoDateMatch (cleanedwikiDate cell))
  \/ (exists label,
        In label (wikiLaunchpads wiki)
        /\ launchpad_name (Some label) = None
        /\ e = NoLaunchpadMatch (Some label))
  \/ (exists r, e = RequestError r /\ later_request r = true /\ In (Sent r) t).

End More.

Module Sample2.

(** A registry that knows no past launch. *)
Definition upcoming_only : list Launch.t :=
  [Launch.mk "u1" "Starlink 23" 101 true true].

Definition services_without_past : Services unit := {|
  launches_query := fun w => (w, Some upcoming_only);
  wiki_get := fun w => (w, Some Sample.wiki);
  launchpads_query := fun name w =>
    (w, Some [Launchpad.mk ("id of " ++ name) "America/New_York"]);
  launches_patch := fun _ _ w => (w, true);
  healthcheck_get := fun _ w => (w, true)
|}.

End Sample2.

(* ================================================================== *)
(** * Facts about strings and patterns *)
(* ================================================================== *)

Module JsFacts.

Import Js.

Lemma append_nil_r (s : string) : s ++ "" = s.
Proof. induction s as [|c s IH]; simpl; [reflexivity | now rewrite IH]. Qed.

Lemma append_assoc (s1 s2 s3 : string) : (s1 ++ s2) ++ s3 = s1 ++ (s2 ++ s3).
Proof. induction s1 as [|c s1 IH]; simpl; [reflexivity | now rewrite IH]. Qed.

Lemma append_eq_nil (s1 s2 : string) : s1 ++ s2 = "" -> s1 = "" /\ s2 = "".
Proof. destruct s1; simpl; [auto | discriminate]. Qed.

Lemma length_append (s1 s2 : string) :
  String.length (s1 ++ s2) = String.length s1 + String.length s2.
Proof. induction s1 as [|c s1 IH]; simpl; [reflexivity | now rewrite IH]. Qed.

Lemma all_app p s1 s2 : all p (s1 ++ s2) = all p s1 && all p s2.
Proof.
  induction s1 as [|c s1 IH]; simpl; [reflexivity|].
  now rewrite IH, andb_assoc.
Qed.

Lemma has_app p s1 s2 : has p (s1 ++ s2) = has p s1 || has p s2.
Proof.
  induction s1 as [|c s1 IH]; simpl; [reflexivity|].
  now rewrite IH, orb_assoc.
Qed.

(** Where every character is in [p], none is in a class disjoint from [p]. *)
Lemma all_has_disjoint p q s :
  (forall c, p c = true -> q c = false) -> all p s = true -> has q s = false.
Proof.
  intros D. induction s as [|c s IH]; simpl; [reflexivity|].
  intros H. apply andb_true_iff in H as [Hc Hs].
  now rewrite (D c Hc), IH.
Qed.

Lemma all_weaken (p q : ascii -> bool) s :
  (forall c, p c = true -> q c = true) -> all p s = true -> all q s = true.
Proof.
  intros D. induction s as [|c s IH]; simpl; [reflexivity|].
  intros H. apply andb_true_iff in H as [Hc Hs].
  now rewrite (D c Hc), IH.
Qed.

(** ** The matcher decides the language *)

Lemma lang_cat_inv r1 r2 s :
  lang (Cat r1 r2) s <-> exists s1 s2, s = s1 ++ s2 /\ lang r1 s1 /\ lang r2 s2.
Proof.
  split.
  - intros H. inversion H; subst. eauto.
  - intros (s1 & s2 & -> & H1 & H2). now constructor.
Qed.

Lemma lang_alt_inv r1 r2 s : lang (Alt r1 r2) s <-> lang r1 s \/ lang r2 s.
Proof.
  split.
  - intros H. inversion H; subst; auto.
  - intros [H|H]; [now apply lang_alt_l | now apply lang_alt_r].
Qed.

Lemma lang_eps_inv s : lang Eps s <-> s = "".
Proof.
  split; [intros H; now inversion H | intros ->; constructor].
Qed.

Lemma lang_cls_inv p s : lang (Cls p) s <-> exists c, s = String c "" /\ p c = true.
Proof.
  split.
  - intros H. inversion H; subst. eauto.
  - intros (c & -> & H). now constructor.
Qed.

Lemma lang_void_inv s : ~ lang Void s.
Proof. intros H. inversion H. Qed.

Lemma nullable_lang r : nullable r = true <-> lang r "".
Proof.
  induction r as [| |p|r1 IH1 r2 IH2|r1 IH1 r2 IH2|r IH]; simpl.
  - split; [discriminate | intros H; inversion H].
  - split; [constructor | reflexivity].
  - split; [discriminate | intros H; inversion H].
  - rewrite andb_true_iff, IH1, IH2, lang_cat_inv. split.
    + intros [H1 H2]. exists "", "". auto.
    + intros (s1 & s2 & E & H1 & H2). symmetry in E.
      apply append_eq_nil in E as [-> ->]. auto.
  - rewrite orb_true_iff, IH1, IH2, lang_alt_inv. reflexivity.
  - split; [constructor | reflexivity].
Qed.

(** A word of [Star r] that starts with [c] starts with a word of [r] that
    starts with [c]. *)
Lemma lang_star_cons r s :
  lang (Star r) s ->
  forall c s', s = String c s' ->
  exists s1 s2, s' = s1 ++ s2 /\ lang r (String c s1) /\ lang (Star r) s2.
Proof.
  intros H. remember (Star r) as r0 eqn:E.
  induction H as [| | | | | r' | r' s1 s2 H1 _ H2 IH2]; try discriminate.
  injection E as ->. intros c s' Hs.
  destruct s1 as [|c1 s1]; simpl in Hs.
  - now apply IH2.
  - injection Hs as -> <-. exists s1, s2. auto.
Qed.

Lemma deriv_lang c r s : lang (deriv c r) s <-> lang r (String c s).
Proof.
  revert s. induction r as [| |p|r1 IH1 r2 IH2|r1 IH1 r2 IH2|r IH]; intros s; simpl.
  - split; intros H; inversion H.
  - split; intros H; inversion H.
  - destruct (p c) eqn:Hp.
    + rewrite lang_eps_inv, lang_cls_inv. split.
      * intros ->. eauto.
      * intros (c' & E & _). now injection E.
    + rewrite lang_cls_inv. split.
      * intros H. inversion H.
      * intros (c' & E & Hc'). injection E as -> _. congruence.
  - assert (Hcat : lang (Cat (deriv c r1) r2) s <->
                   exists s1 s2, s = s1 ++ s2 /\ lang r1 (String c s1) /\ lang r2 s2).
    { rewrite lang_cat_inv. split; intros (s1 & s2 & E & H1 & H2);
        exists s1, s2; (split; [exact E|split; [now apply IH1|exact H2]]). }
    assert (Hsplit : lang (Cat r1 r2) (String c s) <->
              (exists s1 s2, s = s1 ++ s2 /\ lang r1 (String c s1) /\ lang r2 s2)
              \/ (lang r1 "" /\ lang r2 (String c s))).
    { rewrite lang_cat_inv. split.
      - intros (s1 & s2 & E & H1 & H2). destruct s1 as [|c1 s1]; simpl in E.
        + right. subst s2. auto.
        + injection E as <- ->. left. eauto.
      - intros [(s1 & s2 & -> & H1 & H2) | [H1 H2]].
        + exists (String c s1), s2. auto.
        + exists "", (String c s). auto. }
    destruct (nullable r1) eqn:N.
    + rewrite lang_alt_inv, Hcat, IH2, Hsplit.
      apply nullable_lang in N. tauto.
    + rewrite Hcat, Hsplit. split; [auto|].
      intros [H | [H _]]; [exact H|].
      apply nullable_lang in H. congruence.
  - rewrite !lang_alt_inv, IH1, IH2. reflexivity.
  - rewrite lang_cat_inv. split.
    + intros (s1 & s2 & -> & H1 & H2). apply IH in H1.
      change (String c (s1 ++ s2)) with (String c s1 ++ s2). now constructor.
    + intros H. destruct (lang_star_cons _ _ H c s eq_refl) as (s1 & s2 & -> & H1 & H2).
      exists s1, s2. rewrite IH. auto.
Qed.

Theorem test_lang r s : test r s = true <-> lang r s.
Proof.
  revert r. induction s as [|c s IH]; intros r; simpl.
  - apply nullable_lang.
  - rewrite IH. apply deriv_lang.
Qed.

Lemma test_false_lang r s : test r s = false <-> ~ lang r s.
Proof.
  rewrite <- test_lang. destruct (test r s); split; congruence.
Qed.

(** ** Runs of one class *)

Lemma lang_star_cls p s : lang (Star (Cls p)) s <-> all p s = true.
Proof.
  split.
  - intros H. remember (Star (Cls p)) as r eqn:E.
    induction H as [| | | | | r' | r' s1 s2 H1 _ H2 IH2]; try discriminate.
    + reflexivity.
    + injection E as ->. apply lang_cls_inv in H1 as (c & -> & Hc).
      simpl. rewrite Hc. now apply IH2.
  - induction s as [|c s IH]; simpl; intros H.
    + constructor.
    + apply andb_true_iff in H as [Hc Hs].
      change (String c s) with (String c "" ++ s).
      constructor; [now constructor | now apply IH].
Qed.

Lemma lang_rep_cls p n s :
  lang (rep n (Cls p)) s <-> String.length s = n /\ all p s = true.
Proof.
  revert s. induction n as [|n IH]; intros s; simpl.
  - rewrite lang_eps_inv. split.
    + intros ->. auto.
    + intros [H _]. now destruct s.
  - rewrite lang_cat_inv. split.
    + intros (s1 & s2 & -> & H1 & H2).
      apply lang_cls_inv in H1 as (c & -> & Hc). apply IH in H2 as [L A].
      simpl. now rewrite L, Hc, A.
    + intros [L A]. destruct s as [|c s]; [discriminate|].
      simpl in *. apply andb_true_iff in A as [Hc Hs].
      exists (String c ""), s. repeat split.
      * now constructor.
      * apply IH. split; [congruence | exact Hs].
Qed.

Lemma lang_upto_cls p n s :
  lang (upto n (Cls p)) s <-> String.length s <= n /\ all p s = true.
Proof.
  revert s. induction n as [|n IH]; intros s; simpl.
  - rewrite lang_eps_inv. split.
    + intros ->. auto.
    + intros [H _]. destruct s; [reflexivity | simpl in H; lia].
  - rewrite lang_alt_inv, lang_eps_inv, lang_cat_inv. split.
    + intros [-> | (s1 & s2 & -> & H1 & H2)].
      * simpl. split; [lia | reflexivity].
      * apply lang_cls_inv in H1 as (c & -> & Hc). apply IH in H2 as [L A].
        simpl. rewrite Hc, A. split; [lia | reflexivity].
    + intros [L A]. destruct s as [|c s]; [now left | right].
      simpl in *. apply andb_true_iff in A as [Hc Hs].
      exists (String c ""), s. repeat split.
      * now constructor.
      * apply IH. split; [lia | exact Hs].
Qed.

Lemma lang_range_cls p lo hi s :
  lo <= hi ->
  lang (range lo hi (Cls p)) s <->
  lo <= String.length s <= hi /\ all p s = true.
Proof.
  intros Hle. unfold range. rewrite lang_cat_inv. split.
  - intros (s1 & s2 & -> & H1 & H2).
    apply lang_rep_cls in H1 as [L1 A1]. apply lang_upto_cls in H2 as [L2 A2].
    rewrite length_append, all_app, A1, A2. split; [lia | reflexivity].
  - intros [L A].
    exists (substring 0 lo s), (substring lo (String.length s - lo) s).
    assert (E : s = substring 0 lo s ++ substring lo (String.length s - lo) s).
    { clear A. revert lo hi Hle L. induction s as [|c s IH]; intros lo hi Hle L.
      - destruct lo; reflexivity.
      - destruct lo as [|lo]; simpl.
        + f_equal. clear. induction s as [|d s IH]; simpl; [reflexivity | now f_equal].
        + f_equal. simpl in L. apply (IH lo (hi - 1)); lia. }
    split; [exact E|].
    rewrite E, all_app in A. apply andb_true_iff in A as [A1 A2].
    assert (L1 : String.length (substring 0 lo s) = lo).
    { clear -L. revert lo L. induction s as [|c s IH]; intros lo L.
      - simpl in L. assert (lo = 0) by lia. subst. reflexivity.
      - destruct lo as [|lo]; simpl; [reflexivity|].
        simpl in L. f_equal. apply IH. lia. }
    split.
    + apply lang_rep_cls. auto.
    + apply lang_upto_cls. split; [|exact A2].
      assert (Ls := f_equal String.length E). rewrite length_append, L1 in Ls. lia.
Qed.

(** ** Prefixes *)

Lemma length_prefix k s :
  k <= String.length s -> String.length (substring 0 k s) = k.
Proof.
  revert k. induction s as [|c s IH]; intros k Hk.
  - simpl in Hk. assert (k = 0) by lia. subst. reflexivity.
  - destruct k as [|k]; [reflexivity|]. simpl in *. f_equal. apply IH. lia.
Qed.

Lemma all_prefix p k s : all p s = true -> all p (substring 0 k s) = true.
Proof.
  revert k. induction s as [|c s IH]; intros k H.
  - now destruct k.
  - destruct k as [|k]; [reflexivity|]. simpl in *.
    apply andb_true_iff in H as [-> H]. now apply IH.
Qed.

(** ** Sums *)

(** A sum within [2 ^ 53] is exact. *)
Lemma add_exact (x y : Z) : (Z.abs (x + y) <= 2 ^ 53)%Z -> add x y = (x + y)%Z.
Proof.
  intros H. unfold add, to_double.
  destruct (Z.leb_spec (Z.abs (x + y)) (2 ^ 53)); [reflexivity | lia].
Qed.

End JsFacts.

(* ================================================================== *)
(** * The date shapes *)
(* ================================================================== *)

Module DateFacts.

Import Js JsFacts Upcoming Spec.

Ltac by_char c :=
  destruct c as [[|] [|] [|] [|] [|] [|] [|] [|]]; vm_compute;
  try reflexivity; try discriminate; auto.

Lemma digit_not_alpha c : is_digit c = true -> is_alpha c = false.
Proof. by_char c. Qed.
Lemma space_not_alpha c : is_space c = true -> is_alpha c = false.
Proof. by_char c. Qed.
Lemma digit_not_colon c : is_digit c = true -> is_char ":" c = false.
Proof. by_char c. Qed.
Lemma space_not_colon c : is_space c = true -> is_char ":" c = false.
Proof. by_char c. Qed.
Lemma alpha_not_colon c : is_alpha c = true -> is_char ":" c = false.
Proof. by_char c. Qed.
Lemma alpha_not_space c : is_alpha c = true -> is_space c = false.
Proof. by_char c. Qed.
Lemma digit_not_space c : is_digit c = true -> is_space c = false.
Proof. by_char c. Qed.
Lemma alpha_not_digit c : is_alpha c = true -> is_digit c = false.
Proof. by_char c. Qed.

Create HintDb classes.

#[local] Hint Resolve digit_not_alpha space_not_alpha digit_not_colon
  space_not_colon alpha_not_colon alpha_not_space digit_not_space
  alpha_not_digit : classes.

Lemma last_nonspace_app s1 s2 :
  last_nonspace (s1 ++ s2) =
  match last_nonspace s2 with
  | Some d => Some d
  | None => last_nonspace s1
  end.
Proof.
  induction s1 as [|c s1 IH]; simpl.
  - now destruct (last_nonspace s2).
  - rewrite IH. now destruct (last_nonspace s2).
Qed.

Lemma last_nonspace_spaces s : all is_space s = true -> last_nonspace s = None.
Proof.
  induction s as [|c s IH]; simpl; [reflexivity|].
  intros H. apply andb_true_iff in H as [Hc Hs]. now rewrite IH, Hc.
Qed.

(** The last non-blank character of a non-empty run of a class that holds no
    white space is in the class. *)
Lemma last_nonspace_run p s :
  (forall c, p c = true -> is_space c = false) ->
  all p s = true -> 1 <= String.length s ->
  exists c, last_nonspace s = Some c /\ p c = true.
Proof.
  intros D. induction s as [|c s IH]; simpl; [lia|].
  intros H _. apply andb_true_iff in H as [Hc Hs].
  destruct s as [|d s].
  - simpl. rewrite (D c Hc). eauto.
  - destruct (IH Hs) as (e & -> & He); [simpl; lia|]. eauto.
Qed.

(** ** The pieces of the patterns *)

Lemma lang_spaces s : lang spaces s <-> all is_space s = true.
Proof. apply lang_star_cls. Qed.

Lemma lang_digits4 s : lang digits4 s <-> String.length s = 4 /\ all is_digit s = true.
Proof. apply lang_rep_cls. Qed.

Lemma lang_digits2 s : lang digits2 s <-> String.length s = 2 /\ all is_digit s = true.
Proof. apply lang_rep_cls. Qed.

Lemma lang_dayNumber s :
  lang dayNumber s <-> 1 <= String.length s <= 2 /\ all is_digit s = true.
Proof. apply lang_range_cls. lia. Qed.

(** The month token: any run of three to nine letters. *)
Lemma lang_monthName s :
  lang monthName s <-> 3 <= String.length s <= 9 /\ all is_alpha s = true.
Proof.
  unfold monthName. rewrite lang_alt_inv, lang_rep_cls, lang_range_cls by lia.
  split; [intros [[L A]|[L A]] | intros [L A]]; auto.
  split; [lia | exact A].
Qed.

Lemma lang_cats_nil s : lang (cats []) s <-> s = "".
Proof. apply lang_eps_inv. Qed.

Lemma lang_cats_cons r rs s :
  lang (cats (r :: rs)) s <->
  exists s1 s2, s = s1 ++ s2 /\ lang r s1 /\ lang (cats rs) s2.
Proof. apply lang_cat_inv. Qed.

(** Splits a hypothesis [lang (cats [...]) s] into its pieces. *)
Ltac pieces H :=
  repeat match type of H with
  | lang (cats (_ :: _)) _ =>
      let s1 := fresh "s" in let H1 := fresh "P" in
      apply lang_cats_cons in H as (s1 & ? & -> & H1 & H)
  | lang (cats []) _ => apply lang_cats_nil in H as ->
  end.

Ltac shapes :=
  repeat match goal with
  | H : lang spaces _ |- _ => apply lang_spaces in H
  | H : lang digits4 _ |- _ => apply lang_digits4 in H as [? H]
  | H : lang digits2 _ |- _ => apply lang_digits2 in H as [? H]
  | H : lang dayNumber _ |- _ => apply lang_dayNumber in H as [? H]
  | H : lang monthName _ |- _ => apply lang_monthName in H as [? H]
  end.

Lemma has_nonempty p s : all p s = true -> 1 <= String.length s -> has p s = true.
Proof.
  destruct s as [|c s]; simpl; [lia|].
  intros H _. apply andb_true_iff in H as [-> _]. reflexivity.
Qed.

(** ** What tells the shapes apart *)

(** Settles [has q x] for each piece [x] that is a run of a class. *)
Ltac has_pieces :=
  rewrite ?has_app; simpl has;
  repeat match goal with
  | H : all ?p ?x = true |- context [has ?p ?x] =>
      rewrite (has_nonempty p x) by (auto; lia)
  | H : all ?p ?x = true |- context [has ?q ?x] =>
      rewrite (all_has_disjoint p q x) by (auto with classes)
  end.

(** Finds the last non-blank character when the last piece that is not a
    run of blanks is a run of [p]. *)
Ltac last_piece p :=
  rewrite ?last_nonspace_app; simpl last_nonspace;
  repeat match goal with
  | H : all is_space ?x = true |- context [last_nonspace ?x] =>
      rewrite (last_nonspace_spaces x) by assumption
  end;
  match goal with
  | H : all p ?x = true |- context [last_nonspace ?x] =>
      let c := fresh "c" in let E := fresh "E" in let Hc := fresh "Hc" in
      destruct (last_nonspace_run p x) as (c & E & Hc);
      [auto with classes | assumption | lia | rewrite E; exists c; auto]
  end.

Lemma year_no_letter s : lang yearPattern s -> has is_alpha s = false.
Proof.
  intros H. unfold yearPattern in H. pieces H. shapes.
  has_pieces. reflexivity.
Qed.

Lemma month_features s :
  lang monthPattern s ->
  has is_alpha s = true /\ has (is_char ":") s = false
  /\ exists c, last_nonspace s = Some c /\ is_alpha c = true.
Proof.
  intros H. unfold monthPattern in H. pieces H. shapes.
  split; [|split].
  - has_pieces. now rewrite ?orb_true_r.
  - has_pieces. reflexivity.
  - last_piece is_alpha.
Qed.

Lemma day_features s :
  lang dayPattern s ->
  has is_alpha s = true /\ has (is_char ":") s = false
  /\ exists c, last_nonspace s = Some c /\ is_digit c = true.
Proof.
  intros H. unfold dayPattern in H. pieces H. shapes.
  split; [|split].
  - has_pieces. now rewrite ?orb_true_r.
  - has_pieces. reflexivity.
  - last_piece is_digit.
Qed.

Lemma hour_features s :
  lang hourPattern s -> has is_alpha s = true /\ has (is_char ":") s = true.
Proof.
  intros H. unfold hourPattern in H. pieces H.
  match goal with P : lang clock _ |- _ => unfold clock in P; pieces P end.
  match goal with P : lang (Cls (is_char ":")) _ |- _ =>
    apply lang_cls_inv in P as (c & -> & Hc) end.
  shapes. split.
  - has_pieces. now rewrite ?orb_true_r.
  - assert (Hcol : has (is_char ":") (String c "") = true)
      by (cbn [has]; now rewrite Hc).
    rewrite ?has_app, Hcol. now rewrite ?orb_true_r.
Qed.

(** No text has two of the four shapes. *)
Lemma shapes_exclusive s :
  (test yearPattern s = true -> test monthPattern s = false
     /\ test dayPattern s = false /\ test hourPattern s = false)
  /\ (test monthPattern s = true -> test dayPattern s = false
     /\ test hourPattern s = false)
  /\ (test dayPattern s = true -> test hourPattern s = false).
Proof.
  rewrite !test_false_lang, !test_lang.
  split; [intros H; repeat split; intros H'
         | split; [intros H; split; intros H' | intros H H']].
  - apply year_no_letter in H. apply month_features in H' as [H' _]. congruence.
  - apply year_no_letter in H. apply day_features in H' as [H' _]. congruence.
  - apply year_no_letter in H. apply hour_features in H' as [H' _]. congruence.
  - apply month_features in H as (_ & _ & c & H1 & H2).
    apply day_features in H' as (_ & _ & d & H3 & H4).
    assert (c = d) by congruence. subst d.
    apply alpha_not_digit in H2. congruence.
  - apply month_features in H as (_ & H & _).
    apply hour_features in H' as [_ H']. congruence.
  - apply day_features in H as (_ & H & _).
    apply hour_features in H' as [_ H']. congruence.
Qed.

(** The order of the source (year, month, day, hour) and the order from the
    most specific shape give the same tag, or fail together. *)
Lemma set_precision_shapes cleaned wikiDate :
  includes "Q" cleaned = false -> includes "H1" cleaned = false ->
  includes "H2" cleaned = false ->
  set_precision cleaned wikiDate =
  match most_specific_first cleaned with
  | Some p => Ok (wikiDate, p)
  | None => Throw (NoDateMatch cleaned)
  end.
Proof.
  intros HQ H1 H2. unfold set_precision, most_specific_first.
  rewrite HQ, H1, H2.
  destruct (shapes_exclusive cleaned) as (Ey & Em & Ed).
  destruct (test yearPattern cleaned) eqn:Y.
  { destruct (Ey eq_refl) as (-> & -> & ->). reflexivity. }
  destruct (test monthPattern cleaned) eqn:M.
  { destruct (Em eq_refl) as (-> & ->). reflexivity. }
  destruct (test dayPattern cleaned) eqn:D.
  { rewrite (Ed eq_refl). reflexivity. }
  destruct (test hourPattern cleaned); reflexivity.
Qed.

(** ** The patterns say the shapes *)

Lemma lang_bracket b s : lang (opt (Cls (is_char b))) s <-> bracket b s.
Proof.
  unfold opt, bracket. rewrite lang_alt_inv, lang_eps_inv, lang_cls_inv. split.
  - intros [->|(c & -> & Hc)]; [now left | right].
    unfold is_char in Hc. apply Ascii.eqb_eq in Hc. now subst.
  - intros [-> | ->]; [now left | right]. exists b. split; [reflexivity|].
    apply Ascii.eqb_refl.
Qed.

Lemma lang_colon s : lang (Cls (is_char ":")) s <-> s = ":".
Proof.
  rewrite lang_cls_inv. split.
  - intros (c & -> & Hc). unfold is_char in Hc. apply Ascii.eqb_eq in Hc. now subst.
  - intros ->. exists ":"%char. auto.
Qed.

(** Turns the pieces of a pattern into the tokens of a shape. *)
Ltac tokens :=
  repeat match goal with
  | H : lang spaces _ |- _ => apply lang_spaces in H
  | H : lang digits4 _ |- _ => apply lang_digits4 in H
  | H : lang digits2 _ |- _ => apply lang_digits2 in H
  | H : lang dayNumber _ |- _ => apply lang_dayNumber in H
  | H : lang monthName _ |- _ => apply lang_monthName in H
  | H : lang (opt (Cls (is_char _))) _ |- _ => apply lang_bracket in H
  | H : lang (Cls (is_char ":")) _ |- _ => apply lang_colon in H; subst
  end.

(** Builds a word of [cats [...]] from the words of its pieces. *)
Ltac build piece :=
  cbn [cats fold_right]; repeat (apply lang_cat; [piece|]); apply lang_eps.

Ltac token_piece :=
  first [ now apply lang_spaces | now apply lang_digits4 | now apply lang_digits2
        | now apply lang_dayNumber | now apply lang_monthName
        | now apply lang_bracket | now apply lang_colon ].

Lemma lang_clock s : lang clock s <-> clock_token s.
Proof.
  unfold clock_token. split.
  - intros H. unfold clock in H. pieces H. tokens. rewrite append_nil_r.
    do 6 eexists. split; [reflexivity|].
    unfold blank, digits. repeat split; assumption || tauto.
  - intros (o & b1 & hh & mm & b2 & c & -> & Ho & Hb1 & Hh & Hm & Hb2 & Hc).
    unfold blank, digits in *. rewrite <- (append_nil_r c).
    unfold clock. build token_piece.
Qed.

Ltac date_piece := first [ token_piece | now apply lang_clock ].

Lemma lang_year s : lang yearPattern s <-> shape Year s.
Proof.
  unfold shape. split.
  - intros H. unfold yearPattern in H. pieces H. tokens. rewrite append_nil_r.
    do 3 eexists. split; [reflexivity|].
    unfold blank, digits. repeat split; tauto.
  - intros (b0 & y & b1 & -> & H0 & Hy & H1).
    unfold blank, digits in *. rewrite <- (append_nil_r b1).
    unfold yearPattern. build date_piece.
Qed.

Lemma lang_month s : lang monthPattern s <-> shape Month s.
Proof.
  unfold shape. split.
  - intros H. unfold monthPattern in H. pieces H. tokens. rewrite append_nil_r.
    do 5 eexists. split; [reflexivity|].
    unfold blank, digits, month_token. repeat split; tauto.
  - intros (b0 & y & b1 & m & b2 & -> & H0 & Hy & H1 & Hm & H2).
    unfold blank, digits, month_token in *. rewrite <- (append_nil_r b2).
    unfold monthPattern. build date_piece.
Qed.

Lemma lang_day s : lang dayPattern s <-> shape Day s.
Proof.
  unfold shape. split.
  - intros H. unfold dayPattern in H. pieces H. tokens. rewrite append_nil_r.
    do 7 eexists. split; [reflexivity|].
    unfold blank, digits, month_token, day_token. repeat split; tauto.
  - intros (b0 & y & b1 & m & b2 & d & b3 & -> & H0 & Hy & H1 & Hm & H2 & Hd & H3).
    unfold blank, digits, month_token, day_token in *.
    rewrite <- (append_nil_r b3).
    unfold dayPattern. build date_piece.
Qed.

Lemma lang_hour s : lang hourPattern s <-> shape Hour s.
Proof.
  unfold shape. split.
  - intros H. unfold hourPattern in H. pieces H.
    match goal with P : lang clock _ |- _ => apply lang_clock in P end.
    tokens. rewrite append_nil_r.
    do 9 eexists. split; [reflexivity|].
    unfold blank, digits, month_token, day_token. repeat split; tauto.
  - intros (b0 & y & b1 & m & b2 & d & b3 & c & b4 & -> & H0 & Hy & H1 & Hm & H2
            & Hd & H3 & Hc & H4).
    unfold blank, digits, month_token, day_token in *.
    rewrite <- (append_nil_r b4).
    unfold hourPattern. build date_piece.
Qed.

(** A text has the shape of a precision exactly when the pattern of that
    precision holds of it. *)
Lemma shape_test p s :
  shape p s <->
  match p with
  | Year => test yearPattern s = true
  | Month => test monthPattern s = true
  | Day => test dayPattern s = true
  | Hour => test hourPattern s = true
  | Half | Quarter => False
  end.
Proof.
  destruct p; rewrite ?test_lang; try reflexivity.
  - symmetry. apply lang_hour.
  - symmetry. apply lang_day.
  - symmetry. apply lang_month.
  - symmetry. apply lang_year.
Qed.

(** No text has two shapes. *)
Lemma shape_unique p q s : shape p s -> shape q s -> p = q.
Proof.
  rewrite !shape_test. destruct (shapes_exclusive s) as (Ey & Em & Ed).
  destruct p, q; try reflexivity; try tauto; intros Hp Hq;
    try (destruct (Ey Hp) as (? & ? & ?); congruence);
    try (destruct (Ey Hq) as (? & ? & ?); congruence);
    try (destruct (Em Hp) as (? & ?); congruence);
    try (destruct (Em Hq) as (? & ?); congruence);
    try (specialize (Ed Hp); congruence);
    try (specialize (Ed Hq); congruence).
Qed.

(** On a text without "Q", "H1" or "H2" the precision set is the shape of
    the text, and the date error is thrown exactly when it has none. *)
Lemma set_precision_shape cleaned wikiDate :
  includes "Q" cleaned = false -> includes "H1" cleaned = false ->
  includes "H2" cleaned = false ->
  (forall r p, set_precision cleaned wikiDate = Ok (r, p) <->
               r = wikiDate /\ shape p cleaned)
  /\ (forall e, set_precision cleaned wikiDate = Throw e <->
                e = NoDateMatch cleaned /\ forall p, ~ shape p cleaned).
Proof.
  intros HQ H1 H2. rewrite (set_precision_shapes _ _ HQ H1 H2).
  unfold most_specific_first.
  destruct (shapes_exclusive cleaned) as (Ey & Em & Ed).
  destruct (test hourPattern cleaned) eqn:Th;
    [|destruct (test dayPattern cleaned) eqn:Td;
      [|destruct (test monthPattern cleaned) eqn:Tm;
        [|destruct (test yearPattern cleaned) eqn:Ty]]].
  - assert (S : shape Hour cleaned) by (now apply shape_test).
    split.
    + intros r p. split.
      * intros E. injection E as <- <-. auto.
      * intros [-> Hp]. now rewrite (shape_unique _ _ _ Hp S).
    + intros e. split; [discriminate|]. intros [_ H]. now destruct (H Hour).
  - assert (S : shape Day cleaned) by (now apply shape_test).
    split.
    + intros r p. split.
      * intros E. injection E as <- <-. auto.
      * intros [-> Hp]. now rewrite (shape_unique _ _ _ Hp S).
    + intros e. split; [discriminate|]. intros [_ H]. now destruct (H Day).
  - assert (S : shape Month cleaned) by (now apply shape_test).
    split.
    + intros r p. split.
      * intros E. injection E as <- <-. auto.
      * intros [-> Hp]. now rewrite (shape_unique _ _ _ Hp S).
    + intros e. split; [discriminate|]. intros [_ H]. now destruct (H Month).
  - assert (S : shape Year cleaned) by (now apply shape_test).
    split.
    + intros r p. split.
      * intros E. injection E as <- <-. auto.
      * intros [-> Hp]. now rewrite (shape_unique _ _ _ Hp S).
    + intros e. split; [discriminate|]. intros [_ H]. now destruct (H Year).
  - assert (N : forall p, ~ shape p cleaned).
    { intros p Hp. apply shape_test in Hp. destruct p; congruence || tauto. }
    split.
    + intros r p. split; [discriminate|]. intros [_ Hp]. now destruct (N p).
    + intros e. split.
      * intros E. injection E as <-. auto.
      * intros [-> _]. reflexivity.
Qed.

(** ** The tentative marker *)

Lemma starts_with_ci_lang w s :
  starts_with_ci w s = true <-> exists x post, s = x ++ post /\ lang (word_ci w) x.
Proof.
  revert s. induction w as [|a w IH]; intros s; simpl.
  - split; [|reflexivity]. intros _. exists "", s. split; [reflexivity | constructor].
  - destruct s as [|c s].
    + split; [discriminate|]. intros (x & post & E & H).
      apply lang_cat_inv in H as (x1 & x2 & -> & H1 & _).
      apply lang_cls_inv in H1 as (c & -> & _). discriminate.
    + rewrite andb_true_iff, IH. split.
      * intros [Hc (x & post & -> & H)]. exists (String c x), post.
        split; [reflexivity|].
        change (String c x) with (String c "" ++ x). constructor; [now constructor | exact H].
      * intros (x & post & E & H).
        apply lang_cat_inv in H as (x1 & x2 & -> & H1 & H2).
        apply lang_cls_inv in H1 as (c' & -> & Hc). simpl in E.
        injection E as -> ->. eauto.
Qed.

Lemma includes_ci_lang w s :
  includes_ci w s = true <->
  exists pre x post, s = pre ++ x ++ post /\ lang (word_ci w) x.
Proof.
  induction s as [|c s IH].
  - cbn [includes_ci]. rewrite orb_false_r, starts_with_ci_lang. split.
    + intros (x & post & E & H). exists "", x, post. auto.
    + intros (pre & x & post & E & H). symmetry in E.
      apply append_eq_nil in E as [-> E]. exists x, post. auto.
  - cbn [includes_ci]. rewrite orb_true_iff, IH, starts_with_ci_lang. split.
    + intros [(x & post & E & H) | (pre & x & post & -> & H)].
      * exists "", x, post. auto.
      * exists (String c pre), x, post. auto.
    + intros (pre & x & post & E & H). destruct pre as [|c' pre]; simpl in E.
      * left. eauto.
      * injection E as <- ->. right. eauto.
Qed.

Lemma word_ci_dots w x :
  (forall c, has (fun a => ci_eq a c) w = true -> is_dot c = true) ->
  lang (word_ci w) x -> all is_dot x = true.
Proof.
  revert x. induction w as [|a w IH]; intros x D H; simpl in H.
  - apply lang_eps_inv in H as ->. reflexivity.
  - apply lang_cat_inv in H as (x1 & x2 & -> & H1 & H2).
    apply lang_cls_inv in H1 as (c & -> & Hc). simpl.
    rewrite (D c) by (simpl; now rewrite Hc). simpl.
    apply IH; [|exact H2]. intros c' Hc'. apply D. simpl. now rewrite Hc', orb_true_r.
Qed.

Lemma tbd_tba_dots x :
  lang (Alt (word_ci "tbd") (word_ci "tba")) x -> all is_dot x = true.
Proof.
  intros H. apply lang_alt_inv in H as [H|H];
    (eapply word_ci_dots; [|exact H]); intros c; by_char c.
Qed.

(** The marker is found exactly when the cell holds "tbd" or "tba" in some
    letter case and no line terminator. *)
Lemma tbd_of_spec cell :
  tbd_of cell =
  (includes_ci "tbd" cell || includes_ci "tba" cell) && all is_dot cell.
Proof.
  apply eq_iff_eq_true. unfold tbd_of.
  rewrite test_lang, andb_true_iff, orb_true_iff, !includes_ci_lang. split.
  - intros H. unfold tbdPattern in H. pieces H.
    match goal with P : lang (Alt _ _) _ |- _ =>
      pose proof (tbd_tba_dots _ P) as Hx; apply lang_alt_inv in P as [P|P] end;
      repeat match goal with P : lang (Star _) _ |- _ => apply lang_star_cls in P end;
      (split; [|rewrite !all_app; simpl;
                repeat match goal with A : all _ _ = true |- _ => rewrite A; clear A end;
                reflexivity]);
      [left|right]; do 3 eexists; (split; [reflexivity | eassumption]).
  - intros [Hw Hd].
    assert (Hx : exists pre x post, cell = pre ++ x ++ post
                 /\ lang (Alt (word_ci "tbd") (word_ci "tba")) x).
    { destruct Hw as [(pre & x & post & E & H) | (pre & x & post & E & H)];
        exists pre, x, post; (split; [exact E|]);
        [now apply lang_alt_l | now apply lang_alt_r]. }
    destruct Hx as (pre & x & post & -> & H).
    rewrite !all_app in Hd.
    apply andb_true_iff in Hd as [Hpre Hd]. apply andb_true_iff in Hd as [_ Hpost].
    unfold tbdPattern. simpl cats.
    constructor; [now apply lang_star_cls|].
    constructor; [exact H|].
    rewrite <- (append_nil_r post).
    constructor; [now apply lang_star_cls | constructor].
Qed.

End DateFacts.

(* ================================================================== *)
(** * The driver's monad *)
(* ================================================================== *)

Module DriverFacts.

Import Js JsFacts Upcoming Spec.
Local Close Scope string_scope.

(** ** The precedence table *)

Lemma launchpad_name_designated label :
  launchpad_name (Some label) = designated label.
Proof.
  unfold launchpad_name, designated, precedence_table. cbn [find fst snd].
  repeat match goal with
  | |- context [(label =? ?l)%string] =>
      destruct (String.eqb_spec label l) as [->|?];
      [reflexivity
      |rewrite (proj2 (String.eqb_neq l label)) by congruence]
  end.
  reflexivity.
Qed.

Lemma designated_inv label :
  match designated label with
  | Some name => In (label, name) precedence_table
  | None => ~ In label site_labels
  end.
Proof.
  unfold designated, precedence_table, site_labels. cbn [find fst snd].
  repeat match goal with
  | |- context [(?l =? label)%string] =>
      destruct (String.eqb_spec l label) as [<-|?]; [cbn; tauto|]
  end.
  cbn. tauto.
Qed.

Lemma past_In q docs : In q (past docs) <-> In q docs /\ Launch.upcoming q = false.
Proof.
  unfold past. rewrite filter_In, negb_true_iff. reflexivity.
Qed.

Section Monad.

Context {F : Fuzz} {W : Type}.
Variable services : Services W.
Variable HEALTHCHECK : option string.

Lemma steps_weaken {A} (P Q : Event -> Prop) (m : M W A) :
  (forall e, P e -> Q e) -> steps P m -> steps Q m.
Proof.
  intros PQ H st r st' E. destruct (H _ _ _ E) as (t & f & Ht & Hf & HP).
  exists t, f. repeat split; auto. eapply Forall_impl; eauto.
Qed.

Lemma steps_ret {A} P (a : A) : steps (W:=W) P (ret a).
Proof.
  intros st r st' E. injection E as <- <-. exists [], [].
  now rewrite !app_nil_r.
Qed.

Lemma steps_throw {A} P e : steps P (@throw W A e).
Proof.
  intros st r st' E. injection E as <- <-. exists [], [].
  now rewrite !app_nil_r.
Qed.

Lemma steps_lift {A} P (x : Result A) : steps P (@lift W A x).
Proof.
  intros st r st' E. injection E as <- <-. exists [], [].
  now rewrite !app_nil_r.
Qed.

Lemma steps_emit (P : Event -> Prop) e : P e -> steps P (@emit W e).
Proof.
  intros He st r st' E. injection E as <- <-. exists [e], []. simpl.
  rewrite app_nil_r. auto.
Qed.

Lemma steps_push P n : steps P (@push_flight_number W n).
Proof.
  intros st r st' E. injection E as <- <-. exists [], [n]. simpl.
  rewrite app_nil_r. auto.
Qed.

Lemma steps_await {A} (P : Event -> Prop) r (serve : W -> W * option A) :
  P (Sent r) -> steps P (await r serve).
Proof.
  intros He st res st' E. unfold await in E.
  destruct (serve (world st)) as [w' [a|]]; injection E as <- <-;
    exists [Sent r], []; simpl; rewrite app_nil_r; auto.
Qed.

Lemma steps_bind {A B} P (m : M W A) (k : A -> M W B) :
  steps P m -> (forall a, steps P (k a)) -> steps P (bind m k).
Proof.
  intros Hm Hk st r st' E. unfold bind in E.
  destruct (m st) as [[a|e] st1] eqn:E1.
  - destruct (Hm _ _ _ E1) as (t1 & f1 & Ht1 & Hf1 & HP1).
    destruct (Hk a _ _ _ E) as (t2 & f2 & Ht2 & Hf2 & HP2).
    exists (t1 ++ t2), (f1 ++ f2). rewrite Ht2, Hf2, Ht1, Hf1, !app_assoc.
    repeat split. apply Forall_app. auto.
  - injection E as <- <-. eauto.
Qed.

Lemma steps_for_of {A} P (body : A -> M W unit) l :
  (forall x, In x l -> steps P (body x)) -> steps P (for_of body l).
Proof.
  induction l as [|x l IH]; intros H; simpl.
  - apply steps_ret.
  - apply steps_bind.
    + apply H. now left.
    + intros _. apply IH. intros y Hy. apply H. now right.
Qed.

Lemma steps_try_catch {A} P (body : M W A) handler :
  steps P body -> (forall e, steps P (handler e)) -> steps P (try_catch body handler).
Proof.
  intros Hm Hk st r st' E. unfold try_catch in E.
  destruct (body st) as [[a|e] st1] eqn:E1.
  - injection E as <- <-. eauto.
  - destruct (Hm _ _ _ E1) as (t1 & f1 & Ht1 & Hf1 & HP1).
    destruct (Hk e _ _ _ E) as (t2 & f2 & Ht2 & Hf2 & HP2).
    exists (t1 ++ t2), (f1 ++ f2). rewrite Ht2, Hf2, Ht1, Hf1, !app_assoc.
    repeat split. apply Forall_app. auto.
Qed.

(** ** Loops *)




(** ** The rows *)

Lemma entries_from_In {A} (l : list A) k i x :
  In (i, x) (entries_from k l) <-> k <= i /\ nth_error l (i - k) = Some x.
Proof.
  revert k. induction l as [|y l IH]; intros k; simpl.
  - split; [tauto|]. intros [_ H]. now destruct (i - k).
  - rewrite IH. split.
    + intros [E | [Hk H]].
      * injection E as -> ->. rewrite Nat.sub_diag. auto.
      * split; [lia|]. replace (i - k) with (S (i - S k)) by lia. exact H.
    + intros [Hk H]. destruct (i - k) as [|n] eqn:E.
      * left. injection H as ->. f_equal. lia.
      * right. split; [lia|]. replace (i - S k) with n by lia. exact H.
Qed.

Lemma entries_In {A} (l : list A) i x :
  In (i, x) (entries l) <-> nth_error l i = Some x.
Proof.
  unfold entries. rewrite entries_from_In, Nat.sub_0_r. split; [tauto|].
  split; [lia | assumption].
Qed.


Lemma wiki_row_steps base dates payloads pads launches launch i payload :
  In launch launches -> Launch.auto_update launch = true ->
  nth_error payloads i = Some payload ->
  steps (row_event base dates payloads launches)
    (wiki_row services base dates pads launch (i, payload)).
Proof.
  intros Hin Hauto Hp. unfold wiki_row.
  destruct (matches (Launch.name launch) payload) eqn:Hm; [|apply steps_ret].
  destruct (nth_error dates i) as [cell|] eqn:Hd; [|apply steps_throw].
  apply steps_bind; [apply steps_lift|]. intros [wikiDate precision].
  apply steps_bind; [apply steps_push|]. intros _.
  apply steps_bind.
  - unfold resolve_launchpad. destruct (launchpad_name _); [|apply steps_throw].
    apply steps_bind.
    + apply steps_await. split; [reflexivity | discriminate].
    + intros [|doc docs]; [apply steps_throw | apply steps_ret].
  - intros [launchpadId timezone].
    apply steps_bind; [apply steps_lift|]. intros _. apply steps_bind.
    + apply steps_emit. split; [reflexivity | discriminate].
    + intros _. apply steps_await. split; [reflexivity|].
      intros id u E. injection E as <- <-. exists i, launch, payload, cell.
      repeat split; auto.
Qed.

Lemma all_launches_steps base dates payloads pads launches :
  steps (row_event base dates payloads launches)
    (all_launches services base dates payloads pads launches).
Proof.
  unfold all_launches. apply steps_for_of. intros launch Hin.
  unfold launch_rows. destruct (Launch.auto_update launch) eqn:Hauto; [|apply steps_ret].
  apply steps_for_of. intros [i payload] Hi. apply entries_In in Hi.
  now apply wiki_row_steps.
Qed.


(** A matched row whose date has no precision throws before anything is
    recorded or sent. *)
Lemma wiki_row_no_date base dates pads launch i payload cell e st :
  matches (Launch.name launch) payload = true ->
  nth_error dates i = Some cell ->
  set_precision (cleanedwikiDate cell) cell = Throw e ->
  wiki_row services base dates pads launch (i, payload) st = (Throw e, st).
Proof.
  intros Hm Hd He. unfold wiki_row. rewrite Hm, Hd. unfold bind, lift.
  now rewrite He.
Qed.

(** ** The pass *)

Lemma module_exports_run st :
  module_exports services HEALTHCHECK st =
  match reconcile services st with
  | (Ok _, st1) =>
      match healthcheck services HEALTHCHECK st1 with
      | (Ok a, st2) => (Ok a, st2)
      | (Throw e, st2) => console_log e st2
      end
  | (Throw e, st1) => console_log e st1
  end.
Proof.
  unfold module_exports, try_catch, bind.
  destruct (reconcile services st) as [[[]|e] st1]; reflexivity.
Qed.

(** The pass once the registry and the wiki have answered. *)
Lemma reconcile_run w w1 w2 docs wiki :
  launches_query services w = (w1, Some docs) ->
  wiki_get services w1 = (w2, Some wiki) ->
  let st2 := {| world := w2; trace := [Sent LaunchesQuery; Sent WikiGet];
                flightNumbers := [] |} in
  reconcile services (initial w) =
  if (wiki =? "")%string then (Throw (BrokenWikiSelector wiki), st2)
  else match baseFlightNumber (past docs) (wikiPayloads wiki) with
       | Ok base =>
           all_launches services base (wikiDates wiki) (wikiPayloads wiki)
             (wikiLaunchpads wiki) (upcoming docs) st2
       | Throw e => (Throw e, st2)
       end.
Proof.
  intros Hq Hw st2. unfold reconcile, bind, await, initial. simpl.
  rewrite Hq. simpl. rewrite Hw. simpl.
  destruct (wiki =? "")%string; [reflexivity|].
  unfold lift. destruct (baseFlightNumber _ _); reflexivity.
Qed.

Lemma row_event_no_heartbeat base dates payloads launches e :
  row_event base dates payloads launches e -> is_heartbeat e = false.
Proof.
  intros [H _]. destruct e as [[]| |]; simpl in *; congruence.
Qed.

(** The pass before the health check never calls it. *)
Lemma reconcile_steps :
  steps (fun e => is_heartbeat e = false) (reconcile services).
Proof.
  unfold reconcile.
  apply steps_bind; [now apply steps_await|]. intros docs.
  apply steps_bind; [now apply steps_await|]. intros wiki.
  destruct (wiki =? "")%string; [apply steps_throw|].
  apply steps_bind; [apply steps_lift|]. intros base.
  eapply steps_weaken; [|apply all_launches_steps].
  apply row_event_no_heartbeat.
Qed.


Lemma heartbeats_none t :
  Forall (fun e => is_heartbeat e = false) t -> heartbeats t = 0.
Proof.
  unfold heartbeats. induction 1 as [|e t He _ IH]; simpl; [reflexivity|].
  now rewrite He.
Qed.

Lemma healthcheck_steps :
  steps (fun e => is_row_event e = false) (healthcheck services HEALTHCHECK).
Proof.
  unfold healthcheck. destruct HEALTHCHECK as [url|]; [|apply steps_ret].
  destruct (url =? "")%string; [apply steps_ret | now apply steps_await].
Qed.


(** After the pass the job adds no request or log entry of a row. *)
Lemma module_exports_after st :
  exists t,
    trace (snd (module_exports services HEALTHCHECK st))
    = trace (snd (reconcile services st)) ++ t
    /\ Forall (fun e => is_row_event e = false) t.
Proof.
  rewrite module_exports_run.
  destruct (reconcile services st) as [[[]|e] st1]; simpl.
  - destruct (healthcheck services HEALTHCHECK st1) as [[a|e] st2] eqn:E.
    + destruct (healthcheck_steps _ _ _ E) as (t & f & Ht & _ & HP). simpl. eauto.
    + destruct (healthcheck_steps _ _ _ E) as (t & f & Ht & _ & HP). simpl.
      exists (t ++ [ConsoleLog e]). rewrite Ht, app_assoc. split; [reflexivity|].
      apply Forall_app. auto.
  - exists [ConsoleLog e]. auto.
Qed.




(** ** The most recent past launch *)

Lemma ascending_filter f docs : ascending docs -> ascending (filter f docs).
Proof.
  unfold ascending. induction 1 as [|a l Hl IH Ha]; simpl; [constructor|].
  destruct (f a); [|exact IH].
  constructor; [exact IH|].
  rewrite Forall_forall in *. intros x Hx. apply filter_In in Hx as [Hx _]. auto.
Qed.

Lemma last_past_max l :
  ascending l -> l <> [] ->
  exists p, last_past l = Some p /\ forall q, In q l -> number_le q p.
Proof.
  unfold last_past, ascending. induction 1 as [|a l Hl IH Ha]; [congruence|].
  intros _. destruct l as [|b l].
  - exists a. simpl. split; [reflexivity|].
    intros q [<-|[]]. unfold number_le. lia.
  - destruct IH as (p & Hp & Hmax); [discriminate|].
    exists p. split.
    + simpl in *. now rewrite Nat.sub_0_r in Hp.
    + intros q [<-|Hq]; [|now apply Hmax].
      rewrite Forall_forall in Ha. apply Ha.
      apply nth_error_In with (n := List.length (b :: l) - 1). exact Hp.
Qed.

(** ** [flightNumbers] is write-only *)











End Monad.

End DriverFacts.

(* ================================================================== *)
(** * The properties *)
(* ================================================================== *)

Module Claims.

Import Js JsFacts Upcoming Spec DateFacts DriverFacts.
Local Close Scope string_scope.

(** ** The fuzzy name matcher *)

(** C1, as stated, fails: the matcher rejects the pair
    ("Starlink 23", "Starlink 23 mission"). *)
Lemma starlink_23_mission_is_rejected :
  @matches Fuzzball.fuzzball "Starlink 23" "Starlink 23 mission" <> true.
Proof. vm_compute. discriminate. Qed.

(** C1, amended: for a name of the Starlink family the matcher accepts
    exactly when the partial ratio and the full ratio are both 100.  On
    ("Starlink 23", "Starlink 23 mission") the partial ratio is 100 and the
    full ratio 73, so the pair is not matched; ("Starlink 23", "Starlink 23")
    is. *)
Theorem starlink_needs_full_ratio :
  (forall (F : Fuzz) (name wikiPayload : string),
     search starlinkPattern name = true ->
     (matches name wikiPayload = true <->
      partial_ratio name wikiPayload = 100%Z /\ ratio name wikiPayload = 100%Z))
  /\ search starlinkPattern "Starlink 23" = true
  /\ @partial_ratio Fuzzball.fuzzball "Starlink 23" "Starlink 23 mission" = 100%Z
  /\ @ratio Fuzzball.fuzzball "Starlink 23" "Starlink 23 mission" = 73%Z
  /\ @matches Fuzzball.fuzzball "Starlink 23" "Starlink 23 mission" = false
  /\ @matches Fuzzball.fuzzball "Starlink 23" "Starlink 23" = true.
Proof.
  split; [|repeat split; vm_compute; reflexivity].
  intros F name wikiPayload Hs. unfold matches. rewrite Hs. simpl.
  rewrite andb_true_iff, negb_true_iff, negb_false_iff, !Z.eqb_eq. reflexivity.
Qed.

Lemma starlink_needs_full_ratio_witness :
  @matches Fuzzball.fuzzball "Starlink 23" "Starlink 23" = true <->
  @partial_ratio Fuzzball.fuzzball "Starlink 23" "Starlink 23" = 100%Z
  /\ @ratio Fuzzball.fuzzball "Starlink 23" "Starlink 23" = 100%Z.
Proof.
  apply (proj1 starlink_needs_full_ratio Fuzzball.fuzzball). vm_compute. reflexivity.
Defined.

(** C4: the matcher accepts only at a partial ratio of exactly 100;
    ("SSO-A", "SSO-B label text") scores 80 and is rejected;
    ("Starlink 2", "Starlink 23 mission") scores 100 but, being of the
    Starlink family with a full ratio of 69, is rejected too. *)
Theorem match_requires_partial_100 :
  (forall (F : Fuzz) (name wikiPayload : string),
     matches name wikiPayload = true -> partial_ratio name wikiPayload = 100%Z)
  /\ @partial_ratio Fuzzball.fuzzball "SSO-A" "SSO-B label text" = 80%Z
  /\ @matches Fuzzball.fuzzball "SSO-A" "SSO-B label text" = false
  /\ @partial_ratio Fuzzball.fuzzball "Starlink 2" "Starlink 23 mission" = 100%Z
  /\ search starlinkPattern "Starlink 2" = true
  /\ @ratio Fuzzball.fuzzball "Starlink 2" "Starlink 23 mission" = 69%Z
  /\ @matches Fuzzball.fuzzball "Starlink 2" "Starlink 23 mission" = false.
Proof.
  split; [|repeat split; vm_compute; reflexivity].
  intros F name wikiPayload H. unfold matches in H.
  apply andb_true_iff in H as [H _]. now apply Z.eqb_eq.
Qed.

Lemma match_requires_partial_100_witness :
  @partial_ratio Fuzzball.fuzzball "GPS III" "GPS III SV05" = 100%Z.
Proof.
  apply (proj1 match_requires_partial_100 Fuzzball.fuzzball). vm_compute. reflexivity.
Defined.

(** ** The date precision *)

(** C2, on the code: for the cell "TBD 2021 H2" the precision is half and the
    date tentative, and "H2" is replaced by "3" in the local [wikiDate]; but
    the text handed to moment is built from the cell itself and still reads
    "TBD 2021 H2", so the patch of a run carries the instant of that text. *)
Theorem h2_rewrite_never_reaches_moment :
  tbd_of "TBD 2021 H2" = true
  /\ cleanedwikiDate "TBD 2021 H2" = "2021 H2"%string
  /\ set_precision (cleanedwikiDate "TBD 2021 H2") "TBD 2021 H2"
     = Ok ("TBD 2021 3"%string, Half)
  /\ parsedDate "TBD 2021 H2" = "TBD 2021 H2 +0000"%string
  /\ parsedDate "TBD 2021 3" = "TBD 2021 3 +0000"%string
  /\ (forall base i precision launchpadId timezone tbd,
        Update.date_unix
          (rawUpdate base i "TBD 2021 H2" precision launchpadId timezone tbd)
        = unix (moment_tz (moment "TBD 2021 H2 +0000" formats) "UTC"))
  /\ exists u,
       In (Sent (LaunchesPatch "u3" u))
          (trace (snd (@module_exports Fuzzball.fuzzball unit
                         (Sample.services Sample.wiki) None (initial tt))))
       /\ Update.date_precision u = Half
       /\ Update.tbd u = true
       /\ Update.date_unix u
          = unix (moment_tz (moment "TBD 2021 H2 +0000" formats) "UTC")
       /\ Update.date_local u
          = format (tz (moment "TBD 2021 H2 +0000" formats) "America/New_York").
Proof.
  repeat split; try (vm_compute; reflexivity).
  eexists. split.
  - vm_compute. do 10 right. left. reflexivity.
  - repeat split.
Qed.

(** C5, as stated, fails: the month token does not take a prefix of any
    length: "No" begins "November", yet "2020 No" has no precision and
    throws the date error. *)
Lemma two_letter_month_is_rejected :
  In "November"%string monthNames
  /\ substring 0 2 "November" = "No"%string
  /\ cleanedwikiDate "2020 No" = "2020 No"%string
  /\ set_precision (cleanedwikiDate "2020 No") "2020 No"
     = Throw (NoDateMatch "2020 No").
Proof. repeat split; vm_compute; tauto. Qed.

(** C5, amended: on a cleaned date without "Q", "H1" or "H2" the precision
    is decided by the shape of the text: hour for a year, a month, a day and
    a time HH:MM with or without either bracket; day for a year, a month and
    a day; month for a year and a month; year for four digits alone; the
    pieces possibly set off by blanks.  No text has two shapes, so the order
    of the tests does not matter and the most specific shape first gives the
    same.  The month is any run of three to nine letters, and that is what
    the month part of the patterns takes: every prefix of a month name from
    three letters on, and nothing shorter.  A text of no
    shape, as "soon", throws the date error with the cleaned text, which
    ends the row there, nothing recorded or sent. *)
Theorem date_precision_by_shape (cleaned wikiDate : string) :
  includes "Q" cleaned = false ->
  includes "H1" cleaned = false ->
  includes "H2" cleaned = false ->
  (forall r p, set_precision cleaned wikiDate = Ok (r, p) <->
               r = wikiDate /\ shape p cleaned)
  /\ (forall e, set_precision cleaned wikiDate = Throw e <->
                e = NoDateMatch cleaned /\ forall p, ~ shape p cleaned)
  /\ (forall p q, shape p cleaned -> shape q cleaned -> p = q)
  /\ set_precision cleaned wikiDate =
       match most_specific_first cleaned with
       | Some p => Ok (wikiDate, p)
       | None => Throw (NoDateMatch cleaned)
       end
  /\ (forall name k,
        In name monthNames -> 3 <= k <= String.length name ->
        month_token (substring 0 k name))
  /\ (forall token, test monthName token = true <-> month_token token)
  /\ set_precision (cleanedwikiDate "soon") "soon" = Throw (NoDateMatch "soon")
  /\ (forall (F : Fuzz) (W : Type) (services : Services W) base dates pads
             launch i payload (st : State W),
        matches (Launch.name launch) payload = true ->
        nth_error dates i = Some wikiDate ->
        cleaned = cleanedwikiDate wikiDate ->
        (forall p, ~ shape p cleaned) ->
        wiki_row services base dates pads launch (i, payload) st
        = (Throw (NoDateMatch cleaned), st)).
Proof.
  intros HQ H1 H2.
  destruct (set_precision_shape cleaned wikiDate HQ H1 H2) as [Hok Hthrow].
  split; [exact Hok|]. split; [exact Hthrow|].
  split; [intros p q; apply shape_unique|].
  split; [now apply set_precision_shapes|].
  split; [|split; [|split]].
  - intros name k Hin Hk.
    assert (Hname : String.length name <= 9 /\ all is_alpha name = true).
    { unfold monthNames in Hin. simpl in Hin.
      repeat (destruct Hin as [<-|Hin]; [split; [simpl; lia | reflexivity]|]).
      destruct Hin. }
    split.
    + rewrite length_prefix; lia.
    + now apply all_prefix.
  - intros token. rewrite test_lang. apply lang_monthName.
  - vm_compute. reflexivity.
  - intros F W services base dates pads launch i payload st Hm Hd Hc Hnone.
    eapply wiki_row_no_date; eauto. rewrite <- Hc. apply Hthrow. auto.
Qed.

Lemma date_precision_by_shape_witness :
  set_precision "2020 Nov 4 [14:10]" "2020 Nov 4 [14:10]"
  = Ok ("2020 Nov 4 [14:10]"%string, Hour).
Proof.
  apply (proj1 (date_precision_by_shape "2020 Nov 4 [14:10]" "2020 Nov 4 [14:10]"
                  eq_refl eq_refl eq_refl)).
  split; [reflexivity|].
  exists ""%string, "2020"%string, " "%string, "Nov"%string, " "%string,
    "4"%string, " "%string, "[14:10]"%string, ""%string.
  repeat split; try (simpl; lia).
  exists "["%string, ""%string, "14"%string, "10"%string, ""%string, "]"%string.
  repeat split; try (now right).
Defined.

(** C8, on the code: the pattern of the tentative marker is anchored and its
    dot passes no line terminator, while the cells are cut at line feeds
    only; so a cell that holds a carriage return is never tentative, whatever
    else it holds.  The cell "TBD 2021" followed by a carriage return holds
    "TBD", the cleaning of the next line finds it and takes it out, the date
    is read as the year 2021, and the launch is patched as not tentative;
    the same cell without the carriage return is tentative.  And a tentative
    cell that names no date can still be accepted: "TBD Q" is patched with
    the precision of a quarter. *)
Theorem tbd_missed_beside_carriage_return :
  (forall cell, has (is_char CR) cell = true -> tbd_of cell = false)
  /\ includes_ci "tbd" ("TBD 2021" ++ String CR "") = true
  /\ tbd_of ("TBD 2021" ++ String CR "") = false
  /\ tbd_of "TBD 2021" = true
  /\ cleanedwikiDate ("TBD 2021" ++ String CR "") = "2021"%string
  /\ In ("TBD 2021" ++ String CR "")%string (wikiDates Sample.cr_wiki)
  /\ (exists u,
        In (Sent (LaunchesPatch "u1" u))
           (trace (snd (@module_exports Fuzzball.fuzzball unit
                          (Sample.services Sample.cr_wiki) None (initial tt))))
        /\ Update.tbd u = false
        /\ Update.date_precision u = Year)
  /\ tbd_of "TBD Q" = true
  /\ cleanedwikiDate "TBD Q" = "Q"%string
  /\ (forall p, ~ shape p "Q")
  /\ (exists u,
        In (Sent (LaunchesPatch "u1" u))
           (trace (snd (@module_exports Fuzzball.fuzzball unit
                          (Sample.services Sample.q_wiki) None (initial tt))))
        /\ Update.tbd u = true
        /\ Update.date_precision u = Quarter).
Proof.
  split.
  { intros cell Hcr. rewrite tbd_of_spec.
    assert (Hd : all is_dot cell = false).
    { induction cell as [|c cell IH]; [discriminate|]. cbn [has all] in *.
      apply orb_true_iff in Hcr as [Hc|Hc].
      - unfold is_char in Hc. apply Ascii.eqb_eq in Hc. subst c. reflexivity.
      - rewrite (IH Hc). apply andb_false_r. }
    rewrite Hd. apply andb_false_r. }
  repeat split; try (vm_compute; reflexivity).
  - vm_compute. tauto.
  - eexists. split; [vm_compute; do 4 right; left; reflexivity|].
    split; reflexivity.
  - intros p Hp. apply shape_test in Hp. destruct p; vm_compute in Hp;
      congruence || tauto.
  - eexists. split; [vm_compute; do 4 right; left; reflexivity|].
    split; reflexivity.
Qed.

(** ** The launchpad *)

(** C6: the launchpad queried for a cell is the one the precedence table
    gives: each of the eleven cells of the table goes to the launchpad paired
    with it, one of the four, a cell that names two sites to the launchpad of
    the site named first; the launchpad's id and time zone are those of the
    first document the registry answers for that name; and a cell that is
    not in the table throws the launchpad error before any request. *)
Theorem launchpad_labels_resolve (label : string) :
  launchpad_name (Some label) = designated label
  /\ map (fun entry => launchpad_name (Some (fst entry))) precedence_table
     = map (fun entry => Some (snd entry)) precedence_table
  /\ map fst precedence_table = site_labels
  /\ (In label site_labels <-> exists name, designated label = Some name)
  /\ (forall name,
        designated label = Some name ->
        In (label, name) precedence_table
        /\ In name facilities
        /\ designated (first_site label) = Some name
        /\ forall (W : Type) (services : Services W) (st : State W),
             resolve_launchpad services (Some label) st
             = let queried :=
                 {| world := fst (launchpads_query services name (world st));
                    trace := trace st ++ [Sent (LaunchpadsQuery name)];
                    flightNumbers := flightNumbers st |} in
               match snd (launchpads_query services name (world st)) with
               | Some (doc :: _) =>
                   (Ok (Launchpad.id doc, Launchpad.timezone doc), queried)
               | Some [] => (Throw TypeError, queried)
               | None => (Throw (RequestError (LaunchpadsQuery name)), queried)
               end)
  /\ (designated label = None ->
      ~ In label site_labels
      /\ forall (W : Type) (services : Services W) (st : State W),
           resolve_launchpad services (Some label) st
           = (Throw (NoLaunchpadMatch (Some label)), st)).
Proof.
  assert (Hname : launchpad_name (Some label) = designated label)
    by apply launchpad_name_designated.
  split; [exact Hname|]. split; [reflexivity|]. split; [reflexivity|].
  pose proof (designated_inv label) as Hinv. split; [|split].
  - destruct (designated label) as [name|].
    + split; [eauto|]. intros _.
      change site_labels with (map fst precedence_table).
      apply (in_map fst) in Hinv. exact Hinv.
    + split; [tauto|]. intros [name E]. discriminate.
  - intros name Hd. rewrite Hd in Hinv. split; [exact Hinv|].
    split; [|split].
    + unfold precedence_table in Hinv. simpl in Hinv.
      repeat (destruct Hinv as [E|Hinv]; [injection E as <- <-; vm_compute; tauto|]).
      destruct Hinv.
    + unfold precedence_table in Hinv. simpl in Hinv.
      repeat (destruct Hinv as [E|Hinv]; [injection E as <- <-; reflexivity|]).
      destruct Hinv.
    + intros W services st. unfold resolve_launchpad. rewrite Hname, Hd.
      unfold bind, await.
      destruct (launchpads_query services name (world st)) as [w' [[|doc rest]|]];
        reflexivity.
  - intros Hd. rewrite Hd in Hinv. split; [exact Hinv|].
    intros W services st. unfold resolve_launchpad. now rewrite Hname, Hd.
Qed.

(** ** The flight numbers *)

(** C3, as stated, fails: the base is read from the last past launch of the
    registry's answer, which is the highest-numbered one only when the answer
    is sorted: with the past launches 200 and 100 answered in that order the
    base is 101, and the patch of row 0 carries 101.  And the sums are those
    of floats: after a last flight 2 ^ 53 whose name does not match, the base
    is 2 ^ 53 again, and so is the number of row 1. *)
Lemma base_follows_the_answer_order :
  (exists p,
     In p Sample.unsorted_docs /\ Launch.upcoming p = false
     /\ Launch.flight_number p = 200%Z
     /\ forall q, In q Sample.unsorted_docs -> Launch.upcoming q = false ->
                  (Launch.flight_number q <= Launch.flight_number p)%Z)
  /\ @baseFlightNumber Fuzzball.fuzzball (past Sample.unsorted_docs)
       (wikiPayloads Sample.wiki) = Ok 101%Z
  /\ (exists u,
        In (Sent (LaunchesPatch "u1" u))
           (trace (snd (@module_exports Fuzzball.fuzzball unit
                          (Sample.services_of Sample.unsorted_docs Sample.wiki)
                          None (initial tt))))
        /\ Update.flight_number u = 101%Z)
  /\ @partial_ratio Fuzzball.fuzzball "Mission X" "Starlink 23" <> 100%Z
  /\ @baseFlightNumber Fuzzball.fuzzball (past Sample.far_docs)
       (wikiPayloads Sample.wiki) = Ok 9007199254740992%Z
  /\ (exists u,
        In (Sent (LaunchesPatch "u3" u))
           (trace (snd (@module_exports Fuzzball.fuzzball unit
                          (Sample.services_of Sample.far_docs Sample.wiki)
                          None (initial tt))))
        /\ Update.flight_number u = 9007199254740992%Z).
Proof.
  split; [|split; [|split; [|split; [|split]]]].
  - exists (Launch.mk "p1" "Mission X" 200 false false).
    split; [now left|]. split; [reflexivity|]. split; [reflexivity|].
    intros q Hq Hup. simpl in Hq.
    destruct Hq as [<-|[<-|[<-|[]]]]; simpl in *; try lia; discriminate.
  - vm_compute. reflexivity.
  - eexists. split; [vm_compute; do 4 right; left; reflexivity | reflexivity].
  - vm_compute. discriminate.
  - vm_compute. reflexivity.
  - eexists. split; [vm_compute; do 4 right; left; reflexivity | reflexivity].
Qed.

(** C3, amended: when the registry answers the launches in ascending flight
    number, as the query asks, with at least one past launch among them, and
    the manifest has at least one row, the base is the number of the
    highest-numbered past launch, the last one answered, if its name scores a
    partial ratio of 100 against the first payload, and that number plus one
    otherwise; and every patch the job sends belongs to a row [i] of the
    30-row window and carries base plus [i], [i] being the row's index in the
    window, which is its index in the whole manifest.  The sums are those of
    floats, exact while the numbers stay within 2 ^ 53. *)
Theorem base_and_row_numbers (F : Fuzz) (W : Type) (services : Services W)
    (HEALTHCHECK : option string) (w w1 w2 : W) (docs : list Launch.t)
    (wiki : string) :
  launches_query services w = (w1, Some docs) ->
  wiki_get services w1 = (w2, Some wiki) ->
  ascending docs ->
  (exists q, In q docs /\ Launch.upcoming q = false) ->
  wikiPayloads wiki <> [] ->
  exists p first base,
    In p docs
    /\ Launch.upcoming p = false
    /\ last_past (past docs) = Some p
    /\ (forall q, In q docs -> Launch.upcoming q = false ->
        (Launch.flight_number q <= Launch.flight_number p)%Z)
    /\ nth_error (wikiPayloads wiki) 0 = Some first
    /\ base = (if (partial_ratio (Launch.name p) first =? 100)%Z
               then Launch.flight_number p
               else add (Launch.flight_number p) 1)
    /\ baseFlightNumber (past docs) (wikiPayloads wiki) = Ok base
    /\ (forall id u,
          In (Sent (LaunchesPatch id u))
             (trace (snd (module_exports services HEALTHCHECK (initial w)))) ->
          exists i,
            i < 30
            /\ nth_error (allWikiPayloads wiki) i = nth_error (wikiPayloads wiki) i
            /\ patch_of_row base (wikiDates wiki) (wikiPayloads wiki)
                 (upcoming docs) i id u)
    /\ ((Z.abs (Launch.flight_number p) + 30 <= 2 ^ 53)%Z ->
        add (Launch.flight_number p) 1 = (Launch.flight_number p + 1)%Z
        /\ forall i, i < 30 -> add base (Z.of_nat i) = (base + Z.of_nat i)%Z).
Proof.
  intros Hq Hw Hasc [q0 Hq0] Hrows.
  assert (Hpast : past docs <> []).
  { apply past_In in Hq0. intros E. rewrite E in Hq0. destruct Hq0. }
  destruct (last_past_max (past docs)) as (p & Hp & Hmax);
    [now apply ascending_filter | exact Hpast |].
  assert (Hpin : In p (past docs)).
  { unfold last_past in Hp. eapply nth_error_In; eauto. }
  apply past_In in Hpin as [Hpdocs Hpup].
  destruct (wikiPayloads wiki) as [|first rest] eqn:Epay; [congruence|].
  set (base := if (partial_ratio (Launch.name p) first =? 100)%Z
               then Launch.flight_number p else add (Launch.flight_number p) 1).
  assert (Hbase : baseFlightNumber (past docs) (first :: rest) = Ok base).
  { unfold baseFlightNumber. rewrite Hp. simpl. subst base.
    now destruct (partial_ratio (Launch.name p) first =? 100)%Z. }
  exists p, first, base.
  split; [exact Hpdocs|]. split; [exact Hpup|]. split; [exact Hp|].
  split; [intros q Hq' Hup; apply Hmax, past_In; auto|].
  split; [reflexivity|]. split; [reflexivity|]. split; [exact Hbase|].
  split.
  2:{ intros Hsafe.
      assert (H1 : add (Launch.flight_number p) 1 = (Launch.flight_number p + 1)%Z)
        by (apply add_exact; lia).
      split; [exact H1|]. intros i Hi. apply add_exact. subst base.
      destruct (partial_ratio (Launch.name p) first =? 100)%Z; [|rewrite H1]; lia. }
  intros id u Hin.
  destruct (module_exports_after services HEALTHCHECK (initial w)) as (t & Ht & Hnot).
  rewrite Ht in Hin. apply in_app_or in Hin as [Hin|Hin].
  2:{ rewrite Forall_forall in Hnot. apply Hnot in Hin. discriminate. }
  rewrite (reconcile_run services w w1 w2 docs wiki Hq Hw) in Hin.
  assert (Hne : (wiki =? "")%string = false).
  { destruct (String.eqb_spec wiki ""%string) as [->|]; [discriminate | reflexivity]. }
  rewrite Hne, Epay, Hbase in Hin.
  match type of Hin with context [all_launches ?s ?b ?d ?pl ?pd ?l ?st] =>
    destruct (all_launches s b d pl pd l st) as [r st'] eqn:E end.
  destruct (all_launches_steps _ _ _ _ _ _ _ _ _ E) as (t' & f' & Ht' & _ & Hrow).
  simpl in Hin, Ht'. rewrite Ht' in Hin. simpl in Hin.
  destruct Hin as [Hin|[Hin|Hin]]; try discriminate.
  rewrite Forall_forall in Hrow. destruct (Hrow _ Hin) as [_ Hnum].
  destruct (Hnum id u eq_refl) as (i & Hrow_i). exists i.
  assert (Hi : i < 30).
  { destruct Hrow_i as (launch & payload & cell & _ & _ & _ & Hnth & _).
    assert (Hlt : i < List.length (first :: rest)).
    { apply nth_error_Some. congruence. }
    rewrite <- Epay in Hlt. unfold wikiPayloads in Hlt.
    rewrite length_firstn in Hlt. lia. }
  repeat split; auto.
  rewrite <- Epay. unfold wikiPayloads. rewrite nth_error_firstn.
  apply Nat.ltb_lt in Hi. now rewrite Hi.
Qed.

Lemma base_and_row_numbers_witness :
  exists p first base,
    In p Sample.docs
    /\ Launch.upcoming p = false
    /\ last_past (past Sample.docs) = Some p
    /\ (forall q, In q Sample.docs -> Launch.upcoming q = false ->
        (Launch.flight_number q <= Launch.flight_number p)%Z)
    /\ nth_error (wikiPayloads Sample.wiki) 0 = Some first
    /\ base = (if (@partial_ratio Fuzzball.fuzzball (Launch.name p) first =? 100)%Z
               then Launch.flight_number p
               else add (Launch.flight_number p) 1)
    /\ @baseFlightNumber Fuzzball.fuzzball (past Sample.docs)
         (wikiPayloads Sample.wiki) = Ok base
    /\ (forall id u,
          In (Sent (LaunchesPatch id u))
             (trace (snd (@module_exports Fuzzball.fuzzball unit
                            (Sample.services Sample.wiki) (Some "https://hc"%string)
                            (initial tt)))) ->
          exists i,
            i < 30
            /\ nth_error (allWikiPayloads Sample.wiki) i
               = nth_error (wikiPayloads Sample.wiki) i
            /\ @patch_of_row Fuzzball.fuzzball base (wikiDates Sample.wiki)
                 (wikiPayloads Sample.wiki) (upcoming Sample.docs) i id u)
    /\ ((Z.abs (Launch.flight_number p) + 30 <= 2 ^ 53)%Z ->
        add (Launch.flight_number p) 1 = (Launch.flight_number p + 1)%Z
        /\ forall i, i < 30 -> add base (Z.of_nat i) = (base + Z.of_nat i)%Z).
Proof.
  apply (base_and_row_numbers Fuzzball.fuzzball unit
           (Sample.services Sample.wiki) (Some "https://hc"%string) tt tt tt
           Sample.docs Sample.wiki).
  - reflexivity.
  - reflexivity.
  - unfold ascending, Sample.docs, number_le.
    repeat constructor; simpl; lia.
  - exists (Launch.mk "p1" "Mission X" 100 false false). split; [now left | reflexivity].
  - vm_compute. discriminate.
Defined.

(** ** Abort, health check and errors *)




(** C9: the exported function always returns normally; whatever the pass
    throws is only logged, so its caller sees the same result either way,
    and after a throw of the pass nothing follows but the log entry: no
    health check, no further request. *)
Theorem module_exports_never_rejects (F : Fuzz) (W : Type)
    (services : Services W) (HEALTHCHECK : option string) (st : State W) :
  fst (module_exports services HEALTHCHECK st) = Ok tt
  /\ match reconcile services st with
     | (Throw e, st1) =>
         snd (module_exports services HEALTHCHECK st)
         = {| world := world st1; trace := trace st1 ++ [ConsoleLog e];
              flightNumbers := flightNumbers st1 |}
         /\ exists t, trace st1 = trace st ++ t /\ heartbeats t = 0
     | (Ok _, st1) =>
         match healthcheck services HEALTHCHECK st1 with
         | (Throw e, st2) =>
             snd (module_exports services HEALTHCHECK st)
             = {| world := world st2; trace := trace st2 ++ [ConsoleLog e];
                  flightNumbers := flightNumbers st2 |}
         | (Ok _, st2) => snd (module_exports services HEALTHCHECK st) = st2
         end
     end.
Proof.
  rewrite module_exports_run.
  destruct (reconcile services st) as [[[]|e] st1] eqn:E.
  - destruct (healthcheck services HEALTHCHECK st1) as [[[]|e] st2]; simpl; auto.
  - simpl. repeat split.
    destruct (reconcile_steps services _ _ _ E) as (t & f & Ht & _ & HP).
    exists t. split; [exact Ht | now apply heartbeats_none].
Qed.




End Claims.

(* ================================================================== *)
(** * The text of the manifest *)
(* ================================================================== *)

From Stdlib Require Import ZifyNat.

Module TextFacts.

Import Js JsFacts Upcoming Spec DateFacts More.

(** ** Lines *)

Lemma split_not_nil sep s : split sep s <> [].
Proof.
  induction s as [|c s IH]; simpl; [discriminate|].
  destruct (Ascii.eqb c sep); [discriminate|].
  now destruct (split sep s).
Qed.

Lemma split_no_sep sep s v :
  In v (split sep s) -> has (is_char sep) v = false.
Proof.
  revert v. induction s as [|c s IH]; simpl; intros v H.
  - destruct H as [<-|[]]. reflexivity.
  - destruct (Ascii.eqb c sep) eqn:E.
    + destruct H as [<-|H]; [reflexivity | now apply IH].
    + destruct (split sep s) as [|x xs] eqn:Es.
      * destruct H as [<-|[]]. simpl. unfold is_char.
        now rewrite Ascii.eqb_sym, E.
      * destruct H as [<-|H].
        -- simpl. unfold is_char at 1. rewrite Ascii.eqb_sym, E. simpl.
           apply IH. now left.
        -- apply IH. now right.
Qed.

Lemma split_cell sep c rest :
  has (is_char sep) c = false ->
  split sep (c ++ String sep rest) = c :: split sep rest.
Proof.
  induction c as [|a c IH]; simpl; intros H.
  - now rewrite Ascii.eqb_refl.
  - apply orb_false_iff in H as [Ha Hc]. unfold is_char in Ha.
    rewrite Ascii.eqb_sym, Ha, (IH Hc). reflexivity.
Qed.

Lemma wikiRow_unlines cells :
  (forall c, In c cells -> is_cell c = true) -> wikiRow (unlines cells) = cells.
Proof.
  unfold wikiRow. induction cells as [|c cells IH]; intros H; [reflexivity|].
  assert (Hc : is_cell c = true) by (apply H; now left).
  apply andb_true_iff in Hc as [Hne Hlf]. apply negb_true_iff in Hlf.
  simpl unlines. rewrite split_cell by exact Hlf. simpl filter.
  rewrite Hne. f_equal. apply IH. intros d Hd. apply H. now right.
Qed.

(** ** Every eighth cell *)

Lemma filter_index_app {A} p s (l1 l2 : list A) :
  filter_index p s (l1 ++ l2)%list
  = (filter_index p s l1 ++ filter_index p (List.length l1 + s) l2)%list.
Proof.
  revert s. induction l1 as [|x l1 IH]; intros s; simpl; [reflexivity|].
  rewrite IH. replace (List.length l1 + S s) with (S (List.length l1 + s)) by lia.
  now destruct (p s).
Qed.

Lemma filter_index_shift {A} p d s (l : list A) :
  (forall i, p (d + i) = p i) -> filter_index p (d + s) l = filter_index p s l.
Proof.
  intros Hp. revert s. induction l as [|x l IH]; intros s; simpl; [reflexivity|].
  rewrite Hp. replace (S (d + s)) with (d + S s) by lia. now rewrite IH.
Qed.

(** A test that picks place [k] of every run of eight picks column [k]. *)
Lemma filter_index_rows p k (table : list (list string)) :
  (forall i, p (8 + i) = p i) ->
  (forall m, m < 8 -> p m = (m =? k)%nat) ->
  k < 8 ->
  (forall row, In row table -> List.length row = 8) ->
  filter_index p 0 (List.concat table) = column k table.
Proof.
  intros Hper Hk Hlt Hrows. induction table as [|row table IH]; [reflexivity|].
  simpl List.concat. rewrite filter_index_app.
  assert (Hlen : List.length row = 8) by (apply Hrows; now left).
  rewrite Hlen. rewrite (filter_index_shift p 8 0) by exact Hper.
  rewrite IH by (intros r Hr; apply Hrows; now right).
  simpl. f_equal.
  destruct row as [|c0 [|c1 [|c2 [|c3 [|c4 [|c5 [|c6 [|c7 [|]]]]]]]]];
    try discriminate.
  simpl. rewrite !Hk by lia.
  do 8 (destruct k as [|k]; [reflexivity|]). lia.
Qed.

Lemma every_eighth k i : ((8 + i + k) mod 8 =? 0)%nat = ((i + k) mod 8 =? 0)%nat.
Proof.
  replace ((8 + i + k) mod 8) with ((i + k) mod 8); [reflexivity|].
  zify; Z.to_euclidean_division_equations; lia.
Qed.

(** How many of the places [s, s + n) lie [k] before a multiple of eight. *)
Lemma filter_index_length {A} k s (l : list A) :
  List.length (filter_index (fun i => ((i + k) mod 8 =? 0)%nat) s l)
  = (s + k + List.length l + 7) / 8 - (s + k + 7) / 8.
Proof.
  revert s. induction l as [|x l IH]; intros s; cbn [filter_index List.length].
  - zify; Z.to_euclidean_division_equations; lia.
  - destruct (Nat.eqb_spec ((s + k) mod 8) 0) as [E|E];
      cbn [List.length]; rewrite IH;
      zify; Z.to_euclidean_division_equations; lia.
Qed.

Lemma filter_index_ext {A} p q s (l : list A) :
  (forall i, p i = q i) -> filter_index p s l = filter_index q s l.
Proof.
  intros H. revert s. induction l as [|x l IH]; intros s; simpl; [reflexivity|].
  now rewrite H, IH.
Qed.

Lemma filter_index_In {A} p s (l : list A) x :
  In x (filter_index p s l) -> In x l.
Proof.
  revert s. induction l as [|y l IH]; intros s; simpl; [auto|].
  destruct (p s); simpl; intros H; [destruct H as [H|H]|]; eauto.
Qed.

Lemma firstn_In {A} n (l : list A) x : In x (firstn n l) -> In x l.
Proof.
  revert l. induction n as [|n IH]; intros l; [intros []|].
  destruct l as [|y l]; [intros []|]. simpl. intros [H|H]; auto.
Qed.

Lemma all_is_dot_terminator s : all is_dot s = negb (has is_line_terminator s).
Proof.
  induction s as [|c s IH]; [reflexivity|]. cbn [all has]. rewrite IH.
  unfold is_dot. now destruct (is_line_terminator c), (has is_line_terminator s).
Qed.

Lemma all_is_dot s :
  all is_dot s = negb (has (is_char LF) s) && negb (has (is_char CR) s).
Proof.
  induction s as [|c s IH]; [reflexivity|]. cbn [all has]. rewrite IH.
  assert (E : is_dot c = negb (is_char LF c) && negb (is_char CR c)) by by_char c.
  rewrite E.
  destruct (is_char LF c), (is_char CR c), (has (is_char LF) s),
    (has (is_char CR) s); reflexivity.
Qed.

(** The three lists are cut from the same rows: none is longer than thirty,
    the payloads are the fewest and the dates the most. *)
Lemma window_lengths wiki :
  List.length (wikiPayloads wiki) <= List.length (wikiLaunchpads wiki)
  /\ List.length (wikiLaunchpads wiki) <= List.length (wikiDates wiki)
  /\ List.length (wikiDates wiki) <= 30.
Proof.
  assert (Hd : allWikiDates wiki
               = filter_index (fun i => ((i + 0) mod 8 =? 0)%nat) 0 (wikiRow wiki)).
  { unfold allWikiDates. apply filter_index_ext. intros j. now rewrite Nat.add_0_r. }
  unfold wikiPayloads, wikiLaunchpads, wikiDates. rewrite !length_firstn, Hd.
  unfold allWikiPayloads, allWikiLaunchpads. rewrite !filter_index_length.
  zify; Z.to_euclidean_division_equations; lia.
Qed.

Lemma window_cells wiki i payload :
  nth_error (wikiPayloads wiki) i = Some payload ->
  (exists cell, nth_error (wikiDates wiki) i = Some cell)
  /\ (exists label, nth_error (wikiLaunchpads wiki) i = Some label).
Proof.
  intros Hp.
  assert (Hi : i < List.length (wikiPayloads wiki))
    by (apply nth_error_Some; congruence).
  destruct (window_lengths wiki) as (L1 & L2 & _). split.
  - destruct (nth_error (wikiDates wiki) i) as [cell|] eqn:E; [eauto|].
    apply nth_error_None in E. lia.
  - destruct (nth_error (wikiLaunchpads wiki) i) as [l|] eqn:E; [eauto|].
    apply nth_error_None in E. lia.
Qed.

(** ** Cleaning *)

Lemma starts_with_ci_app w p q :
  starts_with_ci w p = true -> starts_with_ci w (p ++ q) = true.
Proof.
  revert p. induction w as [|a w IH]; intros p; simpl; [reflexivity|].
  destruct p as [|c p]; simpl; [discriminate|].
  intros H. apply andb_true_iff in H as [-> H]. now apply IH.
Qed.

Lemma first_alt_None alts s :
  first_alt alts s = None <-> forall w, In w alts -> starts_with_ci w s = false.
Proof.
  induction alts as [|w alts IH]; simpl.
  - split; [intros _ w [] | reflexivity].
  - destruct (starts_with_ci w s) eqn:E.
    + split; [discriminate|]. intros H. rewrite (H w) in E by now left.
      discriminate.
    + rewrite IH. split.
      * intros H v [<-|Hv]; auto.
      * intros H v Hv. apply H. now right.
Qed.

Lemma first_alt_prefix alts p q :
  first_alt alts (p ++ q) = None -> first_alt alts p = None.
Proof.
  rewrite !first_alt_None. intros H w Hw.
  destruct (starts_with_ci w p) eqn:E; [|reflexivity].
  rewrite <- (H w Hw). symmetry. now apply starts_with_ci_app.
Qed.

Lemma no_alt_prefix alts p q : no_alt alts (p ++ q) = true -> no_alt alts p = true.
Proof.
  induction p as [|c p IH].
  - simpl append. intros H. cbn [no_alt].
    assert (E : first_alt alts ("" ++ q) = None).
    { simpl. destruct q; cbn [no_alt] in H; now destruct (first_alt alts _). }
    now rewrite (first_alt_prefix _ _ _ E).
  - intros H. change (String c p ++ q) with (String c (p ++ q)) in H.
    cbn [no_alt] in *.
    destruct (first_alt alts (String c (p ++ q))) eqn:E; [discriminate|].
    change (String c (p ++ q)) with (String c p ++ q) in E.
    rewrite (first_alt_prefix _ _ _ E). now apply IH.
Qed.

Lemma no_alt_suffix alts p q : no_alt alts (p ++ q) = true -> no_alt alts q = true.
Proof.
  induction p as [|c p IH]; [auto|].
  intros H. change (String c p ++ q) with (String c (p ++ q)) in H.
  cbn [no_alt] in H. destruct (first_alt alts _); [discriminate | now apply IH].
Qed.

Lemma before_prefix sep s : exists r, s = before sep s ++ r.
Proof.
  induction s as [|c s [r IH]]; simpl.
  - now exists "".
  - destruct (Ascii.eqb c sep).
    + now exists (String c s).
    + exists r. simpl. now f_equal.
Qed.

Lemma trim_end_prefix s : exists r, s = trim_end s ++ r.
Proof.
  induction s as [|c s [r IH]]; simpl.
  - now exists "".
  - destruct (trim_end s) as [|d t] eqn:E.
    + destruct (is_space c).
      * now exists (String c s).
      * exists r. simpl in *. now f_equal.
    + exists r. simpl in *. now f_equal.
Qed.

Lemma trim_start_suffix s : exists p, s = p ++ trim_start s.
Proof.
  induction s as [|c s [p IH]]; simpl.
  - now exists "".
  - destruct (is_space c).
    + exists (String c p). simpl. now f_equal.
    + now exists "".
Qed.

(** What [trim] keeps is a piece of the text. *)
Lemma trim_piece s : exists p r, s = p ++ trim s ++ r.
Proof.
  unfold trim. destruct (trim_start_suffix s) as [p Hp].
  destruct (trim_end_prefix (trim_start s)) as [r Hr].
  exists p, r. now rewrite <- Hr.
Qed.

Lemma plain_word_inv w :
  plain_word w = true ->
  exists a w', w = String a w' /\ ci_eq a " " = false
               /\ all (fun a => negb (ci_eq a " ")) w' = true.
Proof.
  unfold plain_word. destruct w as [|a w']; [discriminate|]. simpl.
  intros H. apply andb_true_iff in H as [Ha Hw]. apply negb_true_iff in Ha. eauto.
Qed.

Section Replace.

Variable alts : list string.
Hypothesis plain : forall w, In w alts -> plain_word w = true.

Lemma first_alt_positive s n : first_alt alts s = Some n -> exists k, n = S k.
Proof.
  clear -plain. induction alts as [|w l IH]; simpl; [discriminate|].
  destruct (starts_with_ci w s).
  - intros E. injection E as <-.
    destruct (plain_word_inv w) as (a & w' & -> & _); [apply plain; now left|].
    simpl. eauto.
  - apply IH. intros v Hv. apply plain. now right.
Qed.

Lemma first_alt_space s : first_alt alts (String " " s) = None.
Proof.
  apply first_alt_None. intros w Hw.
  destruct (plain_word_inv w (plain w Hw)) as (a & w' & -> & Ha & _).
  simpl. now rewrite Ha.
Qed.

Lemma first_alt_empty : first_alt alts "" = None.
Proof.
  apply first_alt_None. intros w Hw.
  destruct (plain_word_inv w (plain w Hw)) as (a & w' & -> & _). reflexivity.
Qed.

(** A word without a blank found in the output was there in the input. *)
Lemma starts_with_ci_replaced w s :
  all (fun a => negb (ci_eq a " ")) w = true ->
  starts_with_ci w (replace_alts alts " " 0 s) = true ->
  starts_with_ci w s = true.
Proof.
  revert s. induction w as [|a w IH]; intros s Hw; [reflexivity|].
  simpl in Hw. apply andb_true_iff in Hw as [Ha Hw]. apply negb_true_iff in Ha.
  destruct s as [|c s]; [discriminate|].
  cbn [replace_alts]. destruct (first_alt alts (String c s)) as [[|k]|];
    cbn [append starts_with_ci].
  - intros H. apply andb_true_iff in H as [-> H]. now apply IH.
  - now rewrite Ha.
  - intros H. apply andb_true_iff in H as [-> H]. now apply IH.
Qed.

Lemma no_alt_replaced s k : no_alt alts (replace_alts alts " " k s) = true.
Proof.
  revert k. induction s as [|c s IH]; intros k.
  - simpl. now rewrite first_alt_empty.
  - cbn [replace_alts]. destruct k as [|k]; [|apply IH].
    destruct (first_alt alts (String c s)) as [n|] eqn:E.
    + destruct (first_alt_positive _ _ E) as [k' ->].
      cbn [append no_alt]. rewrite first_alt_space. apply IH.
    + cbn [no_alt].
      assert (E' : first_alt alts (String c (replace_alts alts " " 0 s)) = None).
      { apply first_alt_None. intros w Hw.
        destruct (starts_with_ci w (String c (replace_alts alts " " 0 s))) eqn:Es;
          [|reflexivity].
        assert (Hs : starts_with_ci w (String c s) = true).
        { apply starts_with_ci_replaced.
          - destruct (plain_word_inv w (plain w Hw)) as (a & w' & -> & Ha & Hw').
            simpl. now rewrite Ha.
          - cbn [replace_alts]. now rewrite E. }
        rewrite first_alt_None in E. rewrite (E w Hw) in Hs. discriminate. }
      rewrite E'. apply IH.
Qed.

End Replace.

(** Where nothing matches, the replacement changes nothing. *)
Lemma replace_all_fixed alts by_ s :
  no_alt alts s = true -> replace_all alts by_ s = s.
Proof.
  unfold replace_all. induction s as [|c s IH]; [reflexivity|].
  cbn [no_alt replace_alts]. destruct (first_alt alts (String c s)); [discriminate|].
  intros H. now rewrite IH.
Qed.

Lemma no_alt_includes_ci alts w s :
  In w alts -> no_alt alts s = true -> includes_ci w s = false.
Proof.
  intros Hw. induction s as [|c s IH]; cbn [no_alt includes_ci].
  - destruct (first_alt alts "") eqn:E; [discriminate|].
    rewrite first_alt_None in E. now rewrite (E w Hw).
  - destruct (first_alt alts (String c s)) eqn:E; [discriminate|].
    rewrite first_alt_None in E. rewrite (E w Hw). exact IH.
Qed.

Lemma no_alt_char alts c s :
  In (String c "") alts -> no_alt alts s = true -> has (is_char c) s = false.
Proof.
  intros Hw. induction s as [|d s IH]; cbn [no_alt has]; [reflexivity|].
  destruct (first_alt alts (String d s)) eqn:E; [discriminate|].
  rewrite first_alt_None in E. specialize (E _ Hw). simpl in E.
  rewrite andb_true_r in E. intros H. rewrite (IH H), orb_false_r.
  unfold is_char. destruct (Ascii.eqb_spec c d) as [->|]; [|reflexivity].
  unfold ci_eq in E. now rewrite Ascii.eqb_refl in E.
Qed.

Lemma before_no_sep sep s : has (is_char sep) (before sep s) = false.
Proof.
  induction s as [|c s IH]; simpl; [reflexivity|].
  destruct (Ascii.eqb c sep) eqn:E; [reflexivity|].
  simpl. unfold is_char at 1. now rewrite Ascii.eqb_sym, E.
Qed.

Lemma before_fixed sep s : has (is_char sep) s = false -> before sep s = s.
Proof.
  induction s as [|c s IH]; simpl; [reflexivity|].
  intros H. apply orb_false_iff in H as [Hc Hs]. unfold is_char in Hc.
  rewrite Ascii.eqb_sym, Hc. now rewrite IH.
Qed.

Lemma has_piece p q s r : has p (q ++ s ++ r) = false -> has p s = false.
Proof.
  rewrite !has_app. intros H. apply orb_false_iff in H as [_ H].
  now apply orb_false_iff in H as [H _].
Qed.

Lemma trim_end_cons c s :
  trim_end (String c s)
  = match trim_end s with
    | "" => if is_space c then "" else String c ""
    | t => String c t
    end.
Proof. reflexivity. Qed.

Lemma trim_end_idem s : trim_end (trim_end s) = trim_end s.
Proof.
  induction s as [|c s IH]; [reflexivity|]. rewrite trim_end_cons.
  destruct (trim_end s) as [|d t] eqn:E.
  - destruct (is_space c) eqn:Ec; [reflexivity|]. simpl. now rewrite Ec.
  - now rewrite trim_end_cons, IH.
Qed.

Lemma trim_start_head s :
  match trim_start s with
  | "" => True
  | String c _ => is_space c = false
  end.
Proof.
  induction s as [|c s IH]; simpl; [exact I|].
  destruct (is_space c) eqn:E; [exact IH | exact E].
Qed.

Lemma trim_end_head s :
  match s with "" => True | String c _ => is_space c = false end ->
  match trim_end s with "" => True | String c _ => is_space c = false end.
Proof.
  destruct s as [|c s]; [auto|]. intros H. cbn [trim_end].
  destruct (trim_end s); [now rewrite H | exact H].
Qed.

Lemma trim_start_fixed s :
  match s with "" => True | String c _ => is_space c = false end ->
  trim_start s = s.
Proof. destruct s as [|c s]; simpl; [reflexivity | now intros ->]. Qed.

Lemma trim_idem s : trim (trim s) = trim s.
Proof.
  unfold trim. rewrite (trim_start_fixed (trim_end (trim_start s))).
  - apply trim_end_idem.
  - apply trim_end_head, trim_start_head.
Qed.

Lemma extraStuff_plain w : In w extraStuff -> plain_word w = true.
Proof.
  unfold extraStuff. simpl. intros H.
  repeat (destruct H as [<-|H]; [reflexivity|]). destruct H.
Qed.

Lemma punctuation_plain w : In w punctuation -> plain_word w = true.
Proof.
  unfold punctuation. simpl. intros H.
  repeat (destruct H as [<-|H]; [reflexivity|]). destruct H.
Qed.

(** What is left of a text cleaned of [alts], cut at the "/" and trimmed,
    holds no alternative of [alts]. *)
Lemma no_alt_cleaned alts s :
  (forall w, In w alts -> plain_word w = true) ->
  no_alt alts (trim (before "/" (replace_all alts " " s))) = true.
Proof.
  intros plain.
  pose proof (no_alt_replaced alts plain s 0) as H. fold (replace_all alts " " s) in H.
  destruct (before_prefix "/" (replace_all alts " " s)) as [r Hr].
  rewrite Hr in H. apply no_alt_prefix in H.
  destruct (trim_piece (before "/" (replace_all alts " " s))) as (p & q & Hp).
  rewrite Hp in H. apply no_alt_suffix in H. now apply no_alt_prefix in H.
Qed.

Lemma no_slash_cleaned alts s :
  has (is_char "/") (trim (before "/" (replace_all alts " " s))) = false.
Proof.
  destruct (trim_piece (before "/" (replace_all alts " " s))) as (p & q & Hp).
  apply (has_piece _ p _ q). rewrite <- Hp. apply before_no_sep.
Qed.

Lemma has_punctuation s :
  has is_punctuation s
  = has (is_char "-") s || has (is_char "[") s || has (is_char "]") s
    || has (is_char "~") s || has (is_char "/") s.
Proof.
  induction s as [|c s IH]; [reflexivity|]. cbn [has]. rewrite IH.
  unfold is_punctuation.
  destruct (is_char "-" c), (is_char "[" c), (is_char "]" c), (is_char "~" c),
    (is_char "/" c); cbn [orb]; rewrite ?orb_true_r; reflexivity.
Qed.

(** ** The unanchored search *)

Lemma search_word_ci w s : search (word_ci w) s = includes_ci w s.
Proof.
  apply eq_iff_eq_true. unfold search.
  rewrite test_lang, includes_ci_lang. split.
  - intros H. apply lang_cat_inv in H as (pre & rest & -> & _ & H).
    apply lang_cat_inv in H as (x & post & -> & Hx & _). eauto.
  - intros (pre & x & post & -> & Hx).
    constructor; [now apply lang_star_cls; clear; induction pre; simpl|].
    constructor; [exact Hx|].
    apply lang_star_cls. clear. now induction post; simpl.
Qed.

End TextFacts.

(* ================================================================== *)
(** * The outcomes of a pass *)
(* ================================================================== *)

Module PassFacts.

Import Js JsFacts Upcoming Spec DateFacts DriverFacts More TextFacts.
Local Close Scope string_scope.

Section Outcomes.

Context {F : Fuzz} {W : Type}.
Variable services : Services W.
Variable HEALTHCHECK : option string.

Lemma runs_weaken {A} (Q Q' : option Error -> list Event -> list Z -> Prop)
    (m : M W A) :
  (forall e t f, Q e t f -> Q' e t f) -> runs Q m -> runs Q' m.
Proof.
  intros H Hm st r st' E. destruct (Hm _ _ _ E) as (t & f & Ht & Hf & HQ).
  exists t, f. auto.
Qed.

Lemma runs_for_of {A} Q (body : A -> M W unit) l :
  composes Q -> (forall x, In x l -> runs Q (body x)) -> runs Q (for_of body l).
Proof.
  intros [Q0 Qc]. induction l as [|x l IH]; intros H st r st' E; simpl in E.
  - injection E as <- <-. exists [], []. now rewrite !app_nil_r.
  - unfold bind in E. destruct (body x st) as [[[]|e] st1] eqn:E1.
    + destruct (H x (or_introl eq_refl) _ _ _ E1) as (t1 & f1 & Ht1 & Hf1 & H1).
      destruct (IH (fun y Hy => H y (or_intror Hy)) _ _ _ E)
        as (t2 & f2 & Ht2 & Hf2 & H2).
      exists (t1 ++ t2), (f1 ++ f2). rewrite Ht2, Hf2, Ht1, Hf1, !app_assoc.
      repeat split. now apply Qc.
    + injection E as <- <-. apply (H x (or_introl eq_refl) _ _ _ E1).
Qed.

(** Every run of a row is one of the eight outcomes. *)
Lemma wiki_row_outcome base dates pads launch i payload :
  runs (row_outcome services base dates pads launch i payload)
    (wiki_row services base dates pads launch (i, payload)).
Proof.
  intros st r st' E. unfold wiki_row in E.
  destruct (matches (Launch.name launch) payload) eqn:Hm.
  2:{ injection E as <- <-. exists [], []. rewrite !app_nil_r.
      repeat split. now constructor. }
  destruct (nth_error dates i) as [cell|] eqn:Hd.
  2:{ injection E as <- <-. exists [], []. rewrite !app_nil_r.
      repeat split. now constructor. }
  unfold bind, lift in E.
  destruct (set_precision (cleanedwikiDate cell) cell) as [[wikiDate precision]|e]
    eqn:Hs.
  2:{ injection E as <- <-. exists [], []. rewrite !app_nil_r.
      repeat split. simpl. eapply row_no_precision; eauto. }
  simpl in E. unfold resolve_launchpad in E.
  destruct (launchpad_name (nth_error pads i)) as [name|] eqn:Hn.
  2:{ injection E as <- <-. exists [], [(add base (Z.of_nat i))]. simpl.
      rewrite app_nil_r. repeat split. eapply row_no_launchpad; eauto. }
  unfold bind, await in E. simpl in E.
  destruct (launchpads_query services name (world st)) as [w' [[|doc rest]|]] eqn:Hq.
  - injection E as <- <-. exists [Sent (LaunchpadsQuery name)], [(add base (Z.of_nat i))].
    simpl. repeat split. eapply row_no_document; eauto.
  - simpl in E. unfold lift, localTime in E.
    destruct (String.eqb_spec (Launchpad.timezone doc) ""%string) as [Hz|Hz].
    { injection E as <- <-.
      exists [Sent (LaunchpadsQuery name)], [(add base (Z.of_nat i))].
      simpl. repeat split. eapply row_no_timezone; eauto. }
    match type of E with context [launches_patch services ?id ?u ?w] =>
      destruct (launches_patch services id u w) as [w'' [|]] end;
      simpl in E; injection E as <- <-;
      (eexists _, [(add base (Z.of_nat i))]; simpl; rewrite <- !app_assoc; simpl;
       repeat split; eapply row_patched; eauto).
  - injection E as <- <-. exists [Sent (LaunchpadsQuery name)], [(add base (Z.of_nat i))].
    simpl. repeat split. eapply row_query_rejected; eauto.
Qed.

Lemma rows_outcome_app base dates payloads pads launches e t1 f1 t2 f2 :
  rows_outcome services base dates payloads pads launches None t1 f1 ->
  rows_outcome services base dates payloads pads launches e t2 f2 ->
  rows_outcome services base dates payloads pads launches e (t1 ++ t2) (f1 ++ f2).
Proof.
  intros H1 H2. remember None as n eqn:En.
  induction H1 as [|launch i payload e' ta fa tb fb Hin Ha Hp Hrow Hrest IH|];
    [exact H2 | | discriminate].
  subst e'. rewrite <- !app_assoc. eapply rows_step; eauto.
Qed.

(** Every run of the loops is a sequence of row outcomes. *)
Lemma all_launches_outcome base dates payloads pads launches :
  runs (rows_outcome services base dates payloads pads launches)
    (all_launches services base dates payloads pads launches).
Proof.
  assert (C : composes (rows_outcome services base dates payloads pads launches)).
  { split; [constructor|]. intros e t1 f1 t2 f2. apply rows_outcome_app. }
  unfold all_launches. apply runs_for_of; [exact C|]. intros launch Hin.
  unfold launch_rows. destruct (Launch.auto_update launch) eqn:Hauto.
  2:{ intros st r st' E. injection E as <- <-. exists [], [].
      rewrite !app_nil_r. repeat split. constructor. }
  apply runs_for_of; [exact C|]. intros [i payload] Hi. apply entries_In in Hi.
  eapply runs_weaken; [|apply wiki_row_outcome].
  intros [e|] t f H.
  - eapply rows_thrown; eauto.
  - rewrite <- (app_nil_r t), <- (app_nil_r f). eapply rows_step; eauto. constructor.
Qed.

(** ** What the outcomes tell *)

Lemma set_precision_throw cleaned wikiDate e :
  set_precision cleaned wikiDate = Throw e -> e = NoDateMatch cleaned.
Proof.
  unfold set_precision.
  repeat match goal with |- context [if ?b then _ else _] => destruct b end;
    congruence.
Qed.

Lemma row_events base dates pads launch i payload e t f :
  row_outcome services base dates pads launch i payload e t f ->
  Forall (fun ev => is_row_event ev = true) t.
Proof. intros H. destruct H; repeat constructor. Qed.

Lemma rows_events base dates payloads pads launches e t f :
  rows_outcome services base dates payloads pads launches e t f ->
  Forall (fun ev => is_row_event ev = true) t.
Proof.
  induction 1 as [|? ? ? ? ? ? ? ? ? ? ? Hrow ? IH|? ? ? ? ? ? ? ? ? Hrow].
  - constructor.
  - apply Forall_app. split; [eapply row_events; eauto | exact IH].
  - eapply row_events; eauto.
Qed.

Lemma row_patch_from_row base dates payloads pads launches launch i payload e t f :
  In launch launches -> Launch.auto_update launch = true ->
  nth_error payloads i = Some payload ->
  row_outcome services base dates pads launch i payload e t f ->
  forall id u, In (Sent (LaunchesPatch id u)) t ->
  patch_from_row services base dates payloads pads launches id u.
Proof.
  intros Hin Hauto Hp H id u Hu.
  destruct H as [| | | | | | |cell wikiDate precision name w w' doc rest e Hm Hd Hs Hn
                                Hq Hz He];
    simpl in Hu; try tauto; try (destruct Hu as [Hu|[]]; discriminate).
  destruct Hu as [Hu|[Hu|[Hu|[]]]]; try discriminate. injection Hu as <- <-.
  destruct (nth_error pads i) as [label|] eqn:Hl; [|discriminate].
  exists launch, i, payload, cell, label, wikiDate, precision, name, w, w', doc, rest.
  repeat split; auto.
Qed.

Lemma rows_patch_from_row base dates payloads pads launches e t f :
  rows_outcome services base dates payloads pads launches e t f ->
  forall id u, In (Sent (LaunchesPatch id u)) t ->
  patch_from_row services base dates payloads pads launches id u.
Proof.
  induction 1 as [|? ? ? ? ? ? ? ? ? ? ? Hrow ? IH|? ? ? ? ? ? ? ? ? Hrow];
    intros id u Hu.
  - destruct Hu.
  - apply in_app_or in Hu as [Hu|Hu]; [|now apply IH].
    eapply row_patch_from_row; eauto.
  - eapply row_patch_from_row; eauto.
Qed.

Lemma logged_app t1 t2 :
  logged_before_sent t1 -> logged_before_sent t2 -> logged_before_sent (t1 ++ t2).
Proof.
  intros H1 H2 a id u b E. apply app_eq_app in E as [l [[E1 E2]|[E1 E2]]].
  - destruct l as [|x l].
    + rewrite app_nil_r in E1. subst a. simpl in E2.
      destruct (H2 [] id u b (eq_sym E2)) as (t0 & n & nm & E).
      now destruct t0.
    + simpl in E2. injection E2 as <- ->.
      destruct (H1 a id u l E1) as (t0 & n & nm & ->). eauto.
  - destruct (H2 l id u b E2) as (t0 & n & nm & ->).
    exists (t1 ++ t0), n, nm. now rewrite E1, app_assoc.
Qed.

Lemma logged_quiet t :
  Forall (fun ev => is_row_event ev = false) t -> logged_before_sent t.
Proof.
  intros H a id u b E. rewrite E in H. apply Forall_app in H as [_ H].
  inversion H as [|? ? Hx]. discriminate.
Qed.

Lemma row_logged base dates pads launch i payload e t f :
  row_outcome services base dates pads launch i payload e t f ->
  logged_before_sent t.
Proof.
  intros H a id u b E.
  destruct H;
    repeat (destruct a as [|? a]; simpl in E;
            [try discriminate | try discriminate; injection E as ? E]).
  injection E as _ <- _. subst.
  eexists [], _, _. reflexivity.
Qed.

Lemma rows_logged base dates payloads pads launches e t f :
  rows_outcome services base dates payloads pads launches e t f ->
  logged_before_sent t.
Proof.
  induction 1 as [|? ? ? ? ? ? ? ? ? ? ? Hrow ? IH|? ? ? ? ? ? ? ? ? Hrow].
  - now apply logged_quiet.
  - apply logged_app; [eapply row_logged; eauto | exact IH].
  - eapply row_logged; eauto.
Qed.

Lemma patch_numbers_app t1 t2 :
  patch_numbers (t1 ++ t2) = patch_numbers t1 ++ patch_numbers t2.
Proof. apply flat_map_app. Qed.

Lemma patch_numbers_quiet t :
  Forall (fun ev => is_row_event ev = false) t -> patch_numbers t = [].
Proof.
  induction 1 as [|ev t Hev _ IH]; [reflexivity|].
  simpl. rewrite IH. destruct ev as [[]| |]; try reflexivity; discriminate.
Qed.

Lemma row_numbers base dates pads launch i payload e t f :
  row_outcome services base dates pads launch i payload e t f ->
  exists rest, f = patch_numbers t ++ rest /\ List.length rest <= 1
               /\ (e = None -> rest = []).
Proof.
  intros H. destruct H.
  - exists []. auto.
  - exists []. auto.
  - exists []. auto.
  - exists [(add base (Z.of_nat i))]. repeat split; auto. discriminate.
  - exists [(add base (Z.of_nat i))]. repeat split; auto. discriminate.
  - exists [(add base (Z.of_nat i))]. repeat split; auto. discriminate.
  - exists [(add base (Z.of_nat i))]. repeat split; auto. discriminate.
  - exists []. auto.
Qed.

Lemma rows_numbers base dates payloads pads launches e t f :
  rows_outcome services base dates payloads pads launches e t f ->
  exists rest, f = patch_numbers t ++ rest /\ List.length rest <= 1
               /\ (e = None -> rest = []).
Proof.
  induction 1 as [|? ? ? ? ? ? ? ? ? ? ? Hrow ? IH|? ? ? ? ? ? ? ? ? Hrow].
  - exists []. auto.
  - destruct (row_numbers _ _ _ _ _ _ _ _ _ Hrow) as (r1 & -> & _ & Hr1).
    rewrite (Hr1 eq_refl), app_nil_r.
    destruct IH as (rest & -> & Hlen & Hnone). exists rest.
    rewrite patch_numbers_app, app_assoc. auto.
  - eapply row_numbers; eauto.
Qed.

(** Why a row of the wiki's own lists throws. *)
Lemma rows_error_cause docs wiki base launches e t f :
  rows_outcome services base (wikiDates wiki) (wikiPayloads wiki)
    (wikiLaunchpads wiki) launches (Some e) t f ->
  error_cause services docs wiki t e.
Proof.
  intros H. remember (Some e) as oe eqn:Eo. revert e Eo.
  induction H as [|launch i payload oe t1 f1 t2 f2 Hin Hauto Hp Hrow Hrest IH
                  |launch i payload e' t f Hin Hauto Hp Hrow]; intros err Eo.
  - discriminate.
  - destruct (IH err Eo) as [C|[C|[C|[C|(r & Er & Hr & Hs)]]]].
    + now left.
    + right. now left.
    + right. right. now left.
    + right. right. right. now left.
    + right. right. right. right. exists r. repeat split; auto.
      apply in_or_app. now right.
  - injection Eo as ->.
    destruct (window_cells wiki i payload Hp) as [[cell Hc] [label Hl]].
    remember (Some err) as oe eqn:Eo.
    destruct Hrow as [| |cell' e0 Hm Hd Hs|cell' wd pr Hm Hd Hs Hn
                      |cell' wd pr name w w' Hm Hd Hs Hn Hq
                      |cell' wd pr name w w' Hm Hd Hs Hn Hq
                      |cell' wd pr name w w' doc rest Hm Hd Hs Hn Hq Hz
                      |cell' wd pr name w w' doc rest e0 Hm Hd Hs Hn Hq Hz He].
    + discriminate.
    + congruence.
    + injection Eo as ->. right. right. left. exists cell'.
      repeat split; auto.
      * eapply nth_error_In; eauto.
      * eapply set_precision_throw; eauto.
    + injection Eo as <-. right. right. right. left. exists label.
      rewrite Hl in *. repeat split; auto. eapply nth_error_In; eauto.
    + injection Eo as <-. right. right. right. right.
      exists (LaunchpadsQuery name). repeat split. now left.
    + injection Eo as <-. right. left. split; [reflexivity|]. right. left. eauto.
    + injection Eo as <-. right. left. split; [reflexivity|]. right. right.
      exists name, w, w', doc, rest. auto.
    + subst e0. destruct He as [He|He]; [discriminate|]. injection He as ->.
      right. right. right. right. eexists. repeat split. simpl. tauto.
Qed.

Lemma errors_logged_app t1 t2 :
  errors_logged (t1 ++ t2) = errors_logged t1 ++ errors_logged t2.
Proof. apply flat_map_app. Qed.

Lemma errors_logged_rows t :
  Forall (fun ev => is_row_event ev = true) t -> errors_logged t = [].
Proof.
  induction 1 as [|ev t Hev _ IH]; [reflexivity|].
  simpl. rewrite IH. destruct ev as [[]| |]; try reflexivity; discriminate.
Qed.

Lemma errors_logged_In t e : In (ConsoleLog e) t <-> In e (errors_logged t).
Proof.
  unfold errors_logged. rewrite in_flat_map. split.
  - intros H. exists (ConsoleLog e). split; [exact H | now left].
  - intros (ev & Hev & He). destruct ev as [| |e']; simpl in He; try tauto.
    destruct He as [<-|[]]. exact Hev.
Qed.

(** ** The pass and what follows it *)

Lemma baseFlightNumber_throw l payloads e :
  baseFlightNumber l payloads = Throw e -> e = TypeError /\ l = [].
Proof.
  unfold baseFlightNumber, last_past.
  destruct (nth_error l (List.length l - 1)) as [p|] eqn:E.
  - now destruct (_ =? 100)%Z.
  - intros H. injection H as <-. split; [reflexivity|].
    apply nth_error_None in E. destruct l; [reflexivity | simpl in E; lia].
Qed.

(** The pass, by the answers of the registry and of the wiki. *)
Lemma reconcile_cases w :
  exists r st' pre t,
    reconcile services (initial w) = (r, st')
    /\ trace st' = pre ++ t
    /\ Forall (fun ev => is_row_event ev = false) pre
    /\ errors_logged pre = []
    /\ ((t = [] /\ flightNumbers st' = [] /\ thrown r <> None)
        \/ exists docs wiki base,
             rows_outcome services base (wikiDates wiki) (wikiPayloads wiki)
               (wikiLaunchpads wiki) (upcoming docs) (thrown r) t
               (flightNumbers st')).
Proof.
  destruct (launches_query services w) as [w1 [docs|]] eqn:Hq.
  2:{ eexists _, _, [Sent LaunchesQuery], [].
      unfold reconcile, bind, await, initial. simpl. rewrite Hq. simpl.
      repeat split; auto. left. repeat split. discriminate. }
  destruct (wiki_get services w1) as [w2 [wiki|]] eqn:Hw.
  2:{ eexists _, _, [Sent LaunchesQuery; Sent WikiGet], [].
      unfold reconcile, bind, await, initial. simpl. rewrite Hq. simpl.
      rewrite Hw. simpl. repeat split; auto. left. repeat split. discriminate. }
  rewrite (reconcile_run services w w1 w2 docs wiki Hq Hw).
  destruct (wiki =? "")%string.
  { eexists _, _, [Sent LaunchesQuery; Sent WikiGet], []. simpl.
    repeat split; auto. left. repeat split. discriminate. }
  destruct (baseFlightNumber (past docs) (wikiPayloads wiki)) as [base|e].
  2:{ eexists _, _, [Sent LaunchesQuery; Sent WikiGet], []. simpl.
      repeat split; auto. left. repeat split. discriminate. }
  match goal with |- context [all_launches ?s ?b ?d ?pl ?pd ?l ?st] =>
    destruct (all_launches s b d pl pd l st) as [r st'] eqn:E end.
  destruct (all_launches_outcome _ _ _ _ _ _ _ _ E) as (t & f & Ht & Hf & H).
  simpl in Ht, Hf. exists r, st', [Sent LaunchesQuery; Sent WikiGet], t.
  repeat split; auto. right. exists docs, wiki, base. now rewrite Hf.
Qed.

(** What the job adds after the pass: the log entry of the error thrown, or
    the health check with the log entry of its own failure. *)
Lemma module_exports_tail st :
  exists tail,
    trace (snd (module_exports services HEALTHCHECK st))
    = trace (snd (reconcile services st)) ++ tail
    /\ flightNumbers (snd (module_exports services HEALTHCHECK st))
       = flightNumbers (snd (reconcile services st))
    /\ Forall (fun ev => is_row_event ev = false) tail
    /\ match thrown (fst (reconcile services st)) with
       | Some e => tail = [ConsoleLog e]
       | None =>
           errors_logged tail = []
           \/ exists url,
                tail = [Sent (HealthcheckGet url);
                        ConsoleLog (RequestError (HealthcheckGet url))]
       end.
Proof.
  rewrite module_exports_run.
  destruct (reconcile services st) as [[[]|e] st1]; simpl.
  - unfold healthcheck. destruct HEALTHCHECK as [url|].
    + destruct (url =? "")%string.
      * exists []. simpl. rewrite app_nil_r. auto.
      * unfold await, accepted.
        destruct (healthcheck_get services url (world st1)) as [w' [|]]; simpl.
        -- exists [Sent (HealthcheckGet url)]. repeat split; auto.
        -- exists [Sent (HealthcheckGet url);
                   ConsoleLog (RequestError (HealthcheckGet url))].
           rewrite <- app_assoc. repeat split; eauto.
    + exists []. simpl. rewrite app_nil_r. auto.
  - exists [ConsoleLog e]. repeat split; auto.
Qed.

End Outcomes.

End PassFacts.

(* ================================================================== *)
(** * Further properties *)
(* ================================================================== *)

Module Extras.

Import Js JsFacts Upcoming Spec DateFacts DriverFacts More TextFacts.

(** ** The rows of the wiki (lines 52-61) *)

(** X1: when the table's text is made of rows of eight cells, each cell not
    empty, without a line feed and on a line of its own, the dates, the
    launchpads and the payloads read are the first, third and sixth cells of
    the first thirty rows, row by row. *)
Theorem manifest_columns (table : list (list string)) :
  (forall row, In row table ->
     List.length row = 8 /\ forall c, In c row -> is_cell c = true) ->
  wikiDates (unlines (List.concat table)) = firstn 30 (column 0 table)
  /\ wikiLaunchpads (unlines (List.concat table)) = firstn 30 (column 2 table)
  /\ wikiPayloads (unlines (List.concat table)) = firstn 30 (column 5 table).
Proof.
  intros H.
  assert (Hrow : wikiRow (unlines (List.concat table)) = List.concat table).
  { apply wikiRow_unlines. intros c Hc. apply in_concat in Hc as (row & Hrow & Hc).
    now apply (H row Hrow). }
  assert (Hlen : forall row, In row table -> List.length row = 8)
    by (intros row Hr; now apply H).
  unfold wikiDates, allWikiDates, wikiLaunchpads, allWikiLaunchpads,
    wikiPayloads, allWikiPayloads. rewrite Hrow.
  repeat split; f_equal; apply filter_index_rows; auto; try lia.
  - intros i. replace (8 + i) with (8 + i + 0) by lia.
    rewrite every_eighth. now rewrite Nat.add_0_r.
  - intros m Hm. do 8 (destruct m as [|m]; [reflexivity|]). lia.
  - intros i. apply every_eighth.
  - intros m Hm. do 8 (destruct m as [|m]; [reflexivity|]). lia.
  - intros i. apply every_eighth.
  - intros m Hm. do 8 (destruct m as [|m]; [reflexivity|]). lia.
Qed.

Lemma manifest_columns_witness :
  wikiDates (unlines (List.concat
    [["2021 Mar"; "F9"; "SLC-40"; "LEO"; "15 t"; "Starlink 23"; "SpaceX"; "-"]]))
  = firstn 30 (column 0
      [["2021 Mar"; "F9"; "SLC-40"; "LEO"; "15 t"; "Starlink 23"; "SpaceX"; "-"]])
  /\ wikiLaunchpads (unlines (List.concat
    [["2021 Mar"; "F9"; "SLC-40"; "LEO"; "15 t"; "Starlink 23"; "SpaceX"; "-"]]))
  = firstn 30 (column 2
      [["2021 Mar"; "F9"; "SLC-40"; "LEO"; "15 t"; "Starlink 23"; "SpaceX"; "-"]])
  /\ wikiPayloads (unlines (List.concat
    [["2021 Mar"; "F9"; "SLC-40"; "LEO"; "15 t"; "Starlink 23"; "SpaceX"; "-"]]))
  = firstn 30 (column 5
      [["2021 Mar"; "F9"; "SLC-40"; "LEO"; "15 t"; "Starlink 23"; "SpaceX"; "-"]]).
Proof.
  apply (manifest_columns
    [["2021 Mar"; "F9"; "SLC-40"; "LEO"; "15 t"; "Starlink 23"; "SpaceX"; "-"]]).
  intros row [<-|[]]. split; [reflexivity|].
  simpl. intros c H. repeat (destruct H as [<-|H]; [reflexivity|]). destruct H.
Defined.

(** X2: whatever the text of the wiki, each of the three lists holds at most
    thirty cells, and every payload read has a date cell and a launchpad cell
    at its index: neither lookup of a row comes back undefined. *)
Theorem payload_rows_have_cells (wiki : string) (i : nat) (payload : string) :
  nth_error (wikiPayloads wiki) i = Some payload ->
  i < 30
  /\ List.length (wikiPayloads wiki) <= List.length (wikiLaunchpads wiki)
  /\ List.length (wikiLaunchpads wiki) <= List.length (wikiDates wiki)
  /\ List.length (wikiDates wiki) <= 30
  /\ (exists cell, nth_error (wikiDates wiki) i = Some cell)
  /\ (exists launchpad, nth_error (wikiLaunchpads wiki) i = Some launchpad).
Proof.
  intros Hp.
  assert (Hi : i < List.length (wikiPayloads wiki))
    by (apply nth_error_Some; congruence).
  destruct (window_lengths wiki) as (L1 & L2 & L3).
  destruct (window_cells wiki i payload Hp) as [Hd Hl].
  repeat split; auto; lia.
Qed.

Lemma payload_rows_have_cells_witness :
  1 < 30
  /\ List.length (wikiPayloads Sample.wiki) <= List.length (wikiLaunchpads Sample.wiki)
  /\ List.length (wikiLaunchpads Sample.wiki) <= List.length (wikiDates Sample.wiki)
  /\ List.length (wikiDates Sample.wiki) <= 30
  /\ (exists cell, nth_error (wikiDates Sample.wiki) 1 = Some cell)
  /\ (exists launchpad, nth_error (wikiLaunchpads Sample.wiki) 1 = Some launchpad).
Proof.
  apply (payload_rows_have_cells Sample.wiki 1 "GPS III SV05"). reflexivity.
Defined.

(** X3: no cell read from the wiki is empty or holds a line feed; and a date
    cell is taken for tentative exactly when it holds "tbd" or "tba", in any
    letter case, and no line terminator, which for the code units modelled
    is the carriage return, the line feed being excluded already: a
    tentative cell holds no carriage return. *)
Theorem wiki_cells (wiki cell : string) :
  In cell (wikiDates wiki) ->
  In cell (wikiRow wiki)
  /\ cell <> ""
  /\ has (is_char LF) cell = false
  /\ tbd_of cell
     = (includes_ci "tbd" cell || includes_ci "tba" cell)
       && negb (has is_line_terminator cell)
  /\ (tbd_of cell = true -> has (is_char CR) cell = false).
Proof.
  intros H. apply firstn_In, filter_index_In in H.
  assert (Hlf : has (is_char LF) cell = false).
  { unfold wikiRow in H. apply filter_In in H as [H _]. now apply split_no_sep in H. }
  repeat split; auto.
  - unfold wikiRow in H. apply filter_In in H as [_ H]. intros ->. discriminate.
  - rewrite tbd_of_spec, all_is_dot_terminator. reflexivity.
  - rewrite tbd_of_spec, all_is_dot, Hlf. intros E.
    apply andb_true_iff in E as [_ E]. now apply negb_true_iff in E.
Qed.

Lemma wiki_cells_witness :
  In "TBD 2021 H2" (wikiRow Sample.wiki)
  /\ "TBD 2021 H2" <> ""
  /\ has (is_char LF) "TBD 2021 H2" = false
  /\ tbd_of "TBD 2021 H2"
     = (includes_ci "tbd" "TBD 2021 H2" || includes_ci "tba" "TBD 2021 H2")
       && negb (has is_line_terminator "TBD 2021 H2")
  /\ (tbd_of "TBD 2021 H2" = true -> has (is_char CR) "TBD 2021 H2" = false).
Proof.
  apply (wiki_cells Sample.wiki "TBD 2021 H2"). vm_compute. tauto.
Defined.

(** ** The two cleanings of a date (lines 118 and 218) *)

(** X4: the cleaned date holds none of the words taken out ("~", "early",
    "mid", "late", "end", "tbd", "tba", in any letter case), no "/" and no
    white space at either end; cleaning it again changes nothing, and it is
    never taken for tentative. *)
Theorem cleaned_date_normal_form (wikiDate : string) :
  (forall w, In w extraStuff -> includes_ci w (cleanedwikiDate wikiDate) = false)
  /\ has (is_char "/") (cleanedwikiDate wikiDate) = false
  /\ trim (cleanedwikiDate wikiDate) = cleanedwikiDate wikiDate
  /\ cleanedwikiDate (cleanedwikiDate wikiDate) = cleanedwikiDate wikiDate
  /\ tbd_of (cleanedwikiDate wikiDate) = false.
Proof.
  pose proof (no_alt_cleaned extraStuff wikiDate extraStuff_plain) as Hno.
  pose proof (no_slash_cleaned extraStuff wikiDate) as Hslash.
  fold (cleanedwikiDate wikiDate) in Hno, Hslash.
  assert (Hw : forall w, In w extraStuff ->
                 includes_ci w (cleanedwikiDate wikiDate) = false)
    by (intros w Hin; now apply (no_alt_includes_ci extraStuff)).
  assert (Htrim : trim (cleanedwikiDate wikiDate) = cleanedwikiDate wikiDate)
    by apply trim_idem.
  repeat split; auto.
  - unfold cleanedwikiDate at 1.
    rewrite (replace_all_fixed _ _ _ Hno), (before_fixed _ _ Hslash). exact Htrim.
  - rewrite tbd_of_spec, !Hw; [reflexivity | |]; unfold extraStuff; simpl; tauto.
Qed.

(** X5: the text handed to moment is a trimmed text followed by " +0000",
    and holds no "-", "[", "]", "~" or "/" and none of the words "early",
    "mid", "late", "end" before that suffix. *)
Theorem moment_input_is_clean (wikiDate : string) :
  exists body,
    parsedDate wikiDate = body ++ " +0000"
    /\ trim body = body
    /\ has is_punctuation (parsedDate wikiDate) = false
    /\ forall w, In w punctuation -> includes_ci w body = false.
Proof.
  exists (trim (before "/" (replace_all punctuation " " wikiDate))).
  pose proof (no_alt_cleaned punctuation wikiDate punctuation_plain) as Hno.
  pose proof (no_slash_cleaned punctuation wikiDate) as Hslash.
  repeat split.
  - apply trim_idem.
  - unfold parsedDate. rewrite has_app.
    replace (has is_punctuation " +0000") with false by reflexivity.
    rewrite orb_false_r.
    set (body := trim (before "/" (replace_all punctuation " " wikiDate))) in *.
    rewrite has_punctuation, Hslash, !(no_alt_char punctuation _ body);
      try exact Hno; try reflexivity; simpl; tauto.
  - intros w Hw. now apply (no_alt_includes_ci punctuation).
Qed.

(** ** The guard of the Starlink family (line 81) *)

(** X6: the pattern /starlink/i holds exactly of the names that contain
    "starlink" somewhere, in any letter case; so a payload is taken for a
    launch exactly when the partial ratio is 100 and the name either does not
    contain "starlink" or has a full ratio of 100 with the payload. *)
Theorem starlink_guard (F : Fuzz) (name wikiPayload : string) :
  search starlinkPattern name = includes_ci "starlink" name
  /\ matches name wikiPayload
     = (partial_ratio name wikiPayload =? 100)%Z
       && (negb (includes_ci "starlink" name)
           || (ratio name wikiPayload =? 100)%Z).
Proof.
  assert (H : search starlinkPattern name = includes_ci "starlink" name)
    by apply search_word_ci.
  split; [exact H|]. unfold matches. rewrite H.
  now destruct (includes_ci "starlink" name), (ratio name wikiPayload =? 100)%Z.
Qed.

(** ** The patches of a pass (lines 75-249) *)

(** X7: when the registry and the wiki have answered, every patch the job
    sends is the update of one row of the window: it goes to a launch that
    is upcoming and open to updates and whose name matches the payload of
    the row, and its number, dates, precision, launchpad and tentative flag
    are those built from the date and launchpad cells at the same index and
    from the first launchpad document the registry returned. *)
Theorem every_patch_is_a_row (F : Fuzz) (W : Type) (services : Services W)
    (HEALTHCHECK : option string) (w w1 w2 : W) (docs : list Launch.t)
    (wiki : string) (id : string) (u : Update.t) :
  launches_query services w = (w1, Some docs) ->
  wiki_get services w1 = (w2, Some wiki) ->
  In (Sent (LaunchesPatch id u))
     (trace (snd (module_exports services HEALTHCHECK (initial w)))) ->
  exists base,
    baseFlightNumber (past docs) (wikiPayloads wiki) = Ok base
    /\ patch_from_row services base (wikiDates wiki) (wikiPayloads wiki)
         (wikiLaunchpads wiki) (upcoming docs) id u
    /\ exists launch, In launch docs /\ Launch.id launch = id
                      /\ Launch.upcoming launch = true
                      /\ Launch.auto_update launch = true.
Proof.
  intros Hq Hw Hin.
  destruct (PassFacts.module_exports_tail services HEALTHCHECK (initial w))
    as (tail & Ht & _ & Htail & _).
  rewrite Ht in Hin. apply in_app_or in Hin as [Hin|Hin].
  2:{ rewrite Forall_forall in Htail. apply Htail in Hin. discriminate. }
  rewrite (reconcile_run services w w1 w2 docs wiki Hq Hw) in Hin.
  destruct (wiki =? "")%string.
  { simpl in Hin. destruct Hin as [H|[H|[]]]; discriminate. }
  destruct (baseFlightNumber (past docs) (wikiPayloads wiki)) as [base|e].
  2:{ simpl in Hin. destruct Hin as [H|[H|[]]]; discriminate. }
  match type of Hin with context [all_launches ?s ?b ?d ?pl ?pd ?l ?st] =>
    destruct (all_launches s b d pl pd l st) as [r st'] eqn:E end.
  destruct (PassFacts.all_launches_outcome _ _ _ _ _ _ _ _ _ E)
    as (t & f & Htr & _ & Hrows).
  simpl in Hin, Htr. rewrite Htr in Hin. simpl in Hin.
  destruct Hin as [H|[H|Hin]]; try discriminate.
  pose proof (PassFacts.rows_patch_from_row _ _ _ _ _ _ _ _ _ Hrows id u Hin) as Hp.
  exists base. repeat split; auto.
  destruct Hp as (launch & i & payload & cell & label & wd & pr & name & x & x'
                  & doc & rest & Hl & Ha & Hid & _).
  exists launch. unfold upcoming in Hl. apply filter_In in Hl as [Hl Hu]. auto.
Qed.

Lemma every_patch_is_a_row_witness :
  exists base,
    @baseFlightNumber Fuzzball.fuzzball (past Sample.docs)
      (wikiPayloads Sample.wiki) = Ok base
    /\ @patch_from_row Fuzzball.fuzzball unit (Sample.services Sample.wiki) base
         (wikiDates Sample.wiki) (wikiPayloads Sample.wiki)
         (wikiLaunchpads Sample.wiki) (upcoming Sample.docs) "u1"
         (rawUpdate 101 0 "2021 Mar" Month "id of CCAFS SLC 40"
            "America/New_York" false)
    /\ exists launch, In launch Sample.docs /\ Launch.id launch = "u1"
                      /\ Launch.upcoming launch = true
                      /\ Launch.auto_update launch = true.
Proof.
  apply (every_patch_is_a_row Fuzzball.fuzzball unit (Sample.services Sample.wiki)
           None tt tt tt Sample.docs Sample.wiki).
  - reflexivity.
  - reflexivity.
  - vm_compute. do 4 right. left. reflexivity.
Defined.

(** X8: in every run, each patch sent comes right after the log entry of the
    same update, which comes right after a launchpad query: nothing is
    patched that was not logged first. *)
Theorem patches_are_logged_first (F : Fuzz) (W : Type) (services : Services W)
    (HEALTHCHECK : option string) (w : W) :
  logged_before_sent
    (trace (snd (module_exports services HEALTHCHECK (initial w)))).
Proof.
  destruct (PassFacts.module_exports_tail services HEALTHCHECK (initial w))
    as (tail & Ht & _ & Htail & _).
  destruct (PassFacts.reconcile_cases services w)
    as (r & st' & pre & t & E & Htr & Hpre & _ & Hcase).
  rewrite Ht, E. simpl. rewrite Htr.
  apply PassFacts.logged_app; [|now apply PassFacts.logged_quiet].
  apply PassFacts.logged_app; [now apply PassFacts.logged_quiet|].
  destruct Hcase as [(-> & _)|(docs & wiki & base & Hrows)].
  - now apply PassFacts.logged_quiet.
  - eapply PassFacts.rows_logged; eauto.
Qed.

(** X9: in every run, the array [flightNumbers] ends up holding the flight
    numbers of the patches sent, in the order sent, followed by at most one
    more number, that of a row that threw after its date was accepted; when
    the pass completes there is no such number. *)
Theorem flight_numbers_follow_patches (F : Fuzz) (W : Type)
    (services : Services W) (HEALTHCHECK : option string) (w : W) :
  exists rest,
    flightNumbers (snd (module_exports services HEALTHCHECK (initial w)))
    = (patch_numbers (trace (snd (module_exports services HEALTHCHECK (initial w))))
       ++ rest)%list
    /\ List.length rest <= 1
    /\ (fst (reconcile services (initial w)) = Ok tt -> rest = []).
Proof.
  destruct (PassFacts.module_exports_tail services HEALTHCHECK (initial w))
    as (tail & Ht & Hf & Htail & _).
  destruct (PassFacts.reconcile_cases services w)
    as (r & st' & pre & t & E & Htr & Hpre & _ & Hcase).
  rewrite Ht, Hf, E. simpl. rewrite Htr, !PassFacts.patch_numbers_app.
  rewrite (PassFacts.patch_numbers_quiet pre Hpre),
    (PassFacts.patch_numbers_quiet tail Htail), app_nil_r. simpl.
  destruct Hcase as [(-> & -> & Hthrown)|(docs & wiki & base & Hrows)].
  - exists []. repeat split; auto.
  - destruct (PassFacts.rows_numbers _ _ _ _ _ _ _ _ _ Hrows) as (rest & Hr & Hl & Hn).
    exists rest. repeat split; auto. intros ->. now apply Hn.
Qed.

(** ** What stops a pass (lines 24-70, 254-256) *)

(** X10: when the registry does not answer, the wiki is not fetched; when the
    wiki does not answer, or its table is empty, or the registry knows no
    past launch, no row is looked at: in each case the job sends nothing
    further, records no number and only logs the error. *)
Theorem pass_stops_before_rows (F : Fuzz) (W : Type) (services : Services W)
    (HEALTHCHECK : option string) (w : W) :
  (forall w1,
     launches_query services w = (w1, None) ->
     snd (module_exports services HEALTHCHECK (initial w))
     = {| world := w1;
          trace := [Sent LaunchesQuery; ConsoleLog (RequestError LaunchesQuery)];
          flightNumbers := [] |})
  /\ (forall w1 docs w2,
        launches_query services w = (w1, Some docs) ->
        wiki_get services w1 = (w2, None) ->
        snd (module_exports services HEALTHCHECK (initial w))
        = {| world := w2;
             trace := [Sent LaunchesQuery; Sent WikiGet;
                       ConsoleLog (RequestError WikiGet)];
             flightNumbers := [] |})
  /\ (forall w1 docs w2,
        launches_query services w = (w1, Some docs) ->
        wiki_get services w1 = (w2, Some ""%string) ->
        snd (module_exports services HEALTHCHECK (initial w))
        = {| world := w2;
             trace := [Sent LaunchesQuery; Sent WikiGet;
                       ConsoleLog (BrokenWikiSelector "")];
             flightNumbers := [] |})
  /\ (forall w1 docs w2 wiki,
        launches_query services w = (w1, Some docs) ->
        wiki_get services w1 = (w2, Some wiki) ->
        wiki <> ""%string ->
        past docs = [] ->
        snd (module_exports services HEALTHCHECK (initial w))
        = {| world := w2;
             trace := [Sent LaunchesQuery; Sent WikiGet; ConsoleLog TypeError];
             flightNumbers := [] |}).
Proof.
  repeat split.
  - intros w1 Hq. rewrite module_exports_run.
    unfold reconcile, bind, await, initial. simpl. now rewrite Hq.
  - intros w1 docs w2 Hq Hw. rewrite module_exports_run.
    unfold reconcile, bind, await, initial. simpl. rewrite Hq. simpl.
    now rewrite Hw.
  - intros w1 docs w2 Hq Hw.
    rewrite module_exports_run, (reconcile_run services w w1 w2 docs "" Hq Hw).
    reflexivity.
  - intros w1 docs w2 wiki Hq Hw Hne Hpast.
    rewrite module_exports_run, (reconcile_run services w w1 w2 docs wiki Hq Hw).
    destruct (String.eqb_spec wiki ""%string) as [->|_]; [congruence|].
    rewrite Hpast. reflexivity.
Qed.

Lemma pass_stops_before_rows_witness :
  snd (@module_exports Fuzzball.fuzzball unit Sample2.services_without_past
         (Some "https://hc"%string) (initial tt))
  = {| world := tt;
       trace := [Sent LaunchesQuery; Sent WikiGet; ConsoleLog TypeError];
       flightNumbers := [] |}.
Proof.
  apply (proj2 (proj2 (proj2
           (pass_stops_before_rows Fuzzball.fuzzball unit
              Sample2.services_without_past (Some "https://hc"%string) tt)))
           tt Sample2.upcoming_only tt Sample.wiki).
  - reflexivity.
  - reflexivity.
  - discriminate.
  - reflexivity.
Defined.

(** X11: when the registry and the wiki have answered, a run logs at most
    one error, and each logged error has its cause: the wiki's table was
    empty; there is no past launch, or a launchpad query returned no
    document, or it returned a document without time zone; a date cell of
    the window has no precision; a launchpad cell of the window is not one
    the job knows; or a launchpad query, a patch or the health check, sent
    in this run, was rejected.  In particular a missing date or launchpad
    cell is never the cause. *)
Theorem logged_errors_have_causes (F : Fuzz) (W : Type) (services : Services W)
    (HEALTHCHECK : option string) (w w1 w2 : W) (docs : list Launch.t)
    (wiki : string) :
  launches_query services w = (w1, Some docs) ->
  wiki_get services w1 = (w2, Some wiki) ->
  List.length
    (errors_logged (trace (snd (module_exports services HEALTHCHECK (initial w)))))
  <= 1
  /\ forall e,
       In (ConsoleLog e)
          (trace (snd (module_exports services HEALTHCHECK (initial w)))) ->
       error_cause services docs wiki
         (trace (snd (module_exports services HEALTHCHECK (initial w)))) e.
Proof.
  intros Hq Hw.
  destruct (PassFacts.module_exports_tail services HEALTHCHECK (initial w))
    as (tail & Ht & _ & Htail & Hshape).
  rewrite (reconcile_run services w w1 w2 docs wiki Hq Hw) in Ht, Hshape.
  set (out := trace (snd (module_exports services HEALTHCHECK (initial w)))) in *.
  assert (Hstop : forall e0,
            out = ([Sent LaunchesQuery; Sent WikiGet] ++ tail)%list ->
            tail = [ConsoleLog e0] ->
            error_cause services docs wiki out e0 ->
            List.length (errors_logged out) <= 1
            /\ forall e, In (ConsoleLog e) out -> error_cause services docs wiki out e).
  { intros e0 Ho -> Hc. split; [rewrite Ho; simpl; lia|].
    intros e He. rewrite Ho in He. simpl in He.
    destruct He as [H|[H|[H|[]]]]; try discriminate. injection H as <-.
    exact Hc. }
  destruct (String.eqb_spec wiki ""%string) as [Hwiki|Hwiki].
  { simpl in Ht, Hshape. apply (Hstop _ Ht Hshape). left. now rewrite Hwiki. }
  destruct (baseFlightNumber (past docs) (wikiPayloads wiki)) as [base|e0] eqn:Eb.
  2:{ simpl in Ht, Hshape. apply (Hstop _ Ht Hshape).
      apply PassFacts.baseFlightNumber_throw in Eb as [-> Hp]. right. left. auto. }
  match type of Ht with context [all_launches ?s ?b ?d ?pl ?pd ?l ?st] =>
    destruct (all_launches s b d pl pd l st) as [r st'] eqn:E end.
  destruct (PassFacts.all_launches_outcome _ _ _ _ _ _ _ _ _ E)
    as (t & f & Htr & _ & Hrows).
  simpl in Ht, Hshape, Htr. rewrite Htr in Ht.
  pose proof (PassFacts.rows_events _ _ _ _ _ _ _ _ _ Hrows) as Hev.
  assert (Ho : out = ([Sent LaunchesQuery; Sent WikiGet] ++ t ++ tail)%list)
    by (rewrite Ht; reflexivity).
  assert (Hlog : errors_logged out = errors_logged tail).
  { rewrite Ho, !PassFacts.errors_logged_app.
    now rewrite (PassFacts.errors_logged_rows t Hev). }
  assert (Hin : forall e, In (ConsoleLog e) out -> In (ConsoleLog e) tail).
  { intros e He. apply PassFacts.errors_logged_In.
    rewrite <- Hlog. now apply PassFacts.errors_logged_In. }
  destruct r as [[]|e0]; simpl in Hshape.
  - destruct Hshape as [Hnone|(url & ->)].
    + rewrite Hlog, Hnone. split; [simpl; lia|].
      intros e He. apply Hin, PassFacts.errors_logged_In in He.
      rewrite Hnone in He. destruct He.
    + rewrite Hlog. split; [simpl; lia|].
      intros e He. apply Hin in He. destruct He as [H|[H|[]]]; [discriminate|].
      injection H as <-. right. right. right. right.
      exists (HealthcheckGet url). repeat split.
      rewrite Ho. apply in_or_app. right. apply in_or_app. right. now left.
  - subst tail. rewrite Hlog. split; [simpl; lia|].
    intros e He. apply Hin in He. destruct He as [H|[]]. injection H as <-.
    destruct (PassFacts.rows_error_cause services docs wiki base _ _ _ _ Hrows)
      as [C|[C|[C|[C|(rq & Er & Hr & Hs)]]]].
    + now left.
    + right. now left.
    + right. right. now left.
    + right. right. right. now left.
    + right. right. right. right. exists rq. repeat split; auto.
      rewrite Ho. apply in_or_app. right. apply in_or_app. now left.
Qed.

Lemma logged_errors_have_causes_witness :
  List.length
    (errors_logged
       (trace (snd (@module_exports Fuzzball.fuzzball unit
                      Sample.services_without_zone None (initial tt)))))
  <= 1
  /\ forall e,
       In (ConsoleLog e)
          (trace (snd (@module_exports Fuzzball.fuzzball unit
                         Sample.services_without_zone None (initial tt)))) ->
       error_cause Sample.services_without_zone Sample.docs Sample.wiki
         (trace (snd (@module_exports Fuzzball.fuzzball unit
                        Sample.services_without_zone None (initial tt)))) e.
Proof.
  apply (logged_errors_have_causes Fuzzball.fuzzball unit
           Sample.services_without_zone None tt tt tt Sample.docs Sample.wiki);
    reflexivity.
Defined.

End Extras.
